(** * SlideCraft server (server.js): a shallow embedding and its properties

    The Express handlers of [server.js] are embedded as pure functions from a
    request body and the answers of the upstream services to the list of
    upstream calls made and the HTTP response sent.

    - A JavaScript string is the list of its UTF-16 code units ([jsstring]).
    - A JavaScript value as it comes out of [JSON.parse] is a [JsVal];
      a number is the exact decimal [m * 10^e] of its literal (the rounding
      of a literal to the nearest IEEE double is not part of the model).
    - An exception is a [Throw] in the [Result] monad; [try]/[catch] is a
      match on it.
    - [fetch], [axios.put], [Date.now], [String.prototype.toLowerCase], the
      texts of engine-made error messages and the properties an array
      inherits are variables of the section [Server]. *)

From Stdlib Require Import ZArith NArith List Ascii String Lia Bool Permutation.
From stdpp Require Import base list.

Local Open Scope list_scope.

(** ** Strings *)

Definition jsstring := list N.

Definition ch (a : ascii) : N := N_of_ascii a.
Arguments ch : simpl never.

Fixpoint lit (s : string) : jsstring :=
  match s with
  | EmptyString => []
  | String a r => ch a :: lit r
  end.

(** U+2022, the bullet of the summary templates, and a line feed. *)
Definition bullet : N := 8226%N.
Definition LF : N := 10%N.

Fixpoint str_eqb (s t : jsstring) : bool :=
  match s, t with
  | [], [] => true
  | c :: s', d :: t' => N.eqb c d && str_eqb s' t'
  | _, _ => false
  end.

(** [strip_prefix p s]: the rest of [s] after the literal [p], when [s] starts with it. *)
Fixpoint strip_prefix (p s : jsstring) : option jsstring :=
  match p with
  | [] => Some s
  | c :: p' =>
      match s with
      | d :: s' => if N.eqb c d then strip_prefix p' s' else None
      | [] => None
      end
  end.

Definition in_range (lo hi c : N) : bool := N.leb lo c && N.leb c hi.

Definition is_digit (c : N) : bool := in_range 48 57 c.
Definition is_lower (c : N) : bool := in_range 97 122 c.
Definition is_upper (c : N) : bool := in_range 65 90 c.

(** The class [[a-z0-9]] of the slug regex and [\w] of the data-URI regex. *)
Definition is_slug_char (c : N) : bool := is_lower c || is_digit c.
Definition is_word_char (c : N) : bool :=
  is_lower c || is_upper c || is_digit c || N.eqb c 95.

Definition HYPHEN : N := 45%N.
Definition is_hyphen (c : N) : bool := N.eqb c HYPHEN.

(** WhiteSpace and LineTerminator code units, the ones [String.prototype.trim] removes. *)
Definition is_js_space (c : N) : bool :=
  in_range 9 13 c || N.eqb c 32 || N.eqb c 160 || N.eqb c 5760
  || in_range 8192 8202 c || N.eqb c 8232 || N.eqb c 8233
  || N.eqb c 8239 || N.eqb c 8287 || N.eqb c 12288 || N.eqb c 65279.

Fixpoint drop_while (p : N -> bool) (s : jsstring) : jsstring :=
  match s with
  | [] => []
  | c :: r => if p c then drop_while p r else s
  end.

Fixpoint take_while (p : N -> bool) (s : jsstring) : jsstring :=
  match s with
  | [] => []
  | c :: r => if p c then c :: take_while p r else []
  end.

(** [s.trim()] *)
Definition trim (s : jsstring) : jsstring :=
  rev (drop_while is_js_space (rev (drop_while is_js_space s))).

(** [s.substring(0, n)] *)
Definition substring0 (n : nat) (s : jsstring) : jsstring := take n s.

(** *** The regular expressions of server.js, as the scans they perform *)

(** [/\[[\s\S]*\]/]: the greedy tail [[\s\S]*\]] from a position is the
    longest prefix that ends in a closing bracket. *)
Fixpoint upto_last_rbracket (s : jsstring) : option jsstring :=
  match s with
  | [] => None
  | c :: r =>
      match upto_last_rbracket r with
      | Some m => Some (c :: m)
      | None => if N.eqb c (ch "]") then Some [c] else None
      end
  end.

(** [text.match(/\[[\s\S]*\]/)]: start positions are tried from the left;
    the result is element 0 of the match array, or [None] for [null]. *)
Fixpoint match_bracket_span (s : jsstring) : option jsstring :=
  match s with
  | [] => None
  | c :: r =>
      if N.eqb c (ch "[") then
        match upto_last_rbracket r with
        | Some m => Some (c :: m)
        | None => match_bracket_span r
        end
      else match_bracket_span r
  end.

Definition CONCEPT_MARKER : jsstring := lit "SLIDE CONCEPT:".

(** The lazy group [([\s\S]*?)] under the lookahead [(?=\n\n|$)]: code units
    are taken one at a time until the position is followed by two line feeds
    or is the end of the input ([$] without the [m] flag). *)
Fixpoint lazy_until_blank (s : jsstring) : jsstring :=
  match s with
  | [] => []
  | c :: r =>
      match r with
      | d :: _ => if N.eqb c LF && N.eqb d LF then [] else c :: lazy_until_blank r
      | [] => c :: lazy_until_blank r
      end
  end.

(** [text.match(/SLIDE CONCEPT:([\s\S]*?)(?=\n\n|$)/)]: group 1 of the
    leftmost match, or [None] for [null]. *)
Fixpoint match_concept (s : jsstring) : option jsstring :=
  match strip_prefix CONCEPT_MARKER s with
  | Some rest => Some (lazy_until_blank rest)
  | None =>
      match s with
      | [] => None
      | _ :: r => match_concept r
      end
  end.

Definition STAR : N := ch "*".

(** [s.replace(/\*\*/g, '')] *)
Fixpoint remove_bold (s : jsstring) : jsstring :=
  match s with
  | [] => []
  | c :: r =>
      match r with
      | d :: r' =>
          if N.eqb c STAR && N.eqb d STAR then remove_bold r'
          else c :: remove_bold r
      | [] => [c]
      end
  end.

(** [s.replace(/[^a-z0-9]+/g, '-')]: [in_run] tells that the scan is inside
    a match whose hyphen is already written. *)
Fixpoint replace_non_alnum (in_run : bool) (s : jsstring) : jsstring :=
  match s with
  | [] => []
  | c :: r =>
      if is_slug_char c then c :: replace_non_alnum false r
      else if in_run then replace_non_alnum true r
      else HYPHEN :: replace_non_alnum true r
  end.

(** [s.replace(/^-+|-+$/g, '')]: [^-+] can match at position 0 only; after
    it, [-+$] matches at the first position from which only hyphens follow. *)
Fixpoint strip_hyphens_to_end (s : jsstring) : jsstring :=
  match s with
  | [] => []
  | c :: r =>
      if forallb is_hyphen s then [] else c :: strip_hyphens_to_end r
  end.

Definition replace_edge_hyphens (s : jsstring) : jsstring :=
  strip_hyphens_to_end (drop_while is_hyphen s).

(** [s.replace(/^data:image\/\w+;base64,/, '')] *)
Definition strip_data_uri (s : jsstring) : jsstring :=
  match strip_prefix (lit "data:image/") s with
  | Some r =>
      match take_while is_word_char r with
      | [] => s
      | _ :: _ =>
          match strip_prefix (lit ";base64,") (drop_while is_word_char r) with
          | Some rest => rest
          | None => s
          end
      end
  | None => s
  end.

(** Decimal digits of a non-negative integer. *)
Fixpoint uint_digits (u : Decimal.uint) : jsstring :=
  match u with
  | Decimal.Nil => []
  | Decimal.D0 r => 48%N :: uint_digits r
  | Decimal.D1 r => 49%N :: uint_digits r
  | Decimal.D2 r => 50%N :: uint_digits r
  | Decimal.D3 r => 51%N :: uint_digits r
  | Decimal.D4 r => 52%N :: uint_digits r
  | Decimal.D5 r => 53%N :: uint_digits r
  | Decimal.D6 r => 54%N :: uint_digits r
  | Decimal.D7 r => 55%N :: uint_digits r
  | Decimal.D8 r => 56%N :: uint_digits r
  | Decimal.D9 r => 57%N :: uint_digits r
  end.

Definition nat_digits (n : N) : jsstring := uint_digits (N.to_uint n).

(** ** Values *)

(** A value of the JSON data model, plus [undefined]. [JNum m e] is the
    number [m * 10^e]. An object is the list of its members in source order;
    of two members with one name the later one is the property. *)
#[warnings="-register-all"] Inductive JsVal : Type :=
| JUndefined
| JNull
| JBool (b : bool)
| JNum (m e : Z)
| JStr (s : jsstring)
| JArr (items : list JsVal)
| JObj (members : list (jsstring * JsVal)).

(** What the runtime raises by itself; the text of its [message] is the engine's. *)
Inductive EngineError : Type :=
| TypeError_nullish_property (property : jsstring)
| TypeError_not_a_function (method : jsstring)
| TypeError_to_primitive
| SyntaxError_json
| FetchFailed.

Inductive Exn : Type :=
| UserError (message : jsstring)
| Engine (e : EngineError)
| AxiosError (response : option (Z * JsVal)).

Inductive Result (A : Type) : Type :=
| Val (a : A)
| Throw (e : Exn).
Arguments Val {A} a.
Arguments Throw {A} e.

#[global] Instance Result_ret : MRet Result := @Val.
#[global] Instance Result_bind : MBind Result :=
  fun A B (k : A -> Result B) (r : Result A) =>
    match r with
    | Val a => k a
    | Throw e => Throw e
    end.

Definition truthy (v : JsVal) : bool :=
  match v with
  | JUndefined | JNull => false
  | JBool b => b
  | JNum m _ => negb (Z.eqb m 0)
  | JStr s => match s with [] => false | _ => true end
  | JArr _ | JObj _ => true
  end.

Definition nullish (v : JsVal) : bool :=
  match v with
  | JUndefined | JNull => true
  | _ => false
  end.

(** [v === undefined] *)
Definition is_undefined (v : JsVal) : bool :=
  match v with
  | JUndefined => true
  | _ => false
  end.

(** [a || b] *)
Definition js_or (a b : JsVal) : JsVal := if truthy a then a else b.

Fixpoint last_member (k : jsstring) (ms : list (jsstring * JsVal)) : option JsVal :=
  match ms with
  | [] => None
  | (k', v) :: r =>
      match last_member k r with
      | Some w => Some w
      | None => if str_eqb k k' then Some v else None
      end
  end.

Definition has_own (k : jsstring) (ms : list (jsstring * JsVal)) : bool :=
  match last_member k ms with
  | Some _ => true
  | None => false
  end.

Definition or_undefined (o : option JsVal) : JsVal :=
  match o with
  | Some v => v
  | None => JUndefined
  end.

Definition int_num (z : Z) : JsVal := JNum z 0.

(** [v.name] for the names server.js reads from parsed JSON ([candidates],
    [content], [parts], [text], [predictions], [bytesBase64Encoded], [data],
    [key], [url], [bucket], [uploadedAt], [length]): none of them is
    inherited from a built-in prototype, so only own properties count. *)
Definition get_prop (v : JsVal) (name : jsstring) : Result JsVal :=
  match v with
  | JUndefined | JNull => Throw (Engine (TypeError_nullish_property name))
  | JBool _ | JNum _ _ => Val JUndefined
  | JStr s =>
      if str_eqb name (lit "length") then Val (int_num (Z.of_nat (length s)))
      else Val JUndefined
  | JArr l =>
      if str_eqb name (lit "length") then Val (int_num (Z.of_nat (length l)))
      else Val JUndefined
  | JObj ms => Val (or_undefined (last_member name ms))
  end.

(** [v[0]] *)
Definition get_index0 (v : JsVal) : Result JsVal :=
  match v with
  | JUndefined | JNull => Throw (Engine (TypeError_nullish_property (lit "0")))
  | JBool _ | JNum _ _ => Val JUndefined
  | JStr s => Val (match s with c :: _ => JStr [c] | [] => JUndefined end)
  | JArr l => Val (match l with x :: _ => x | [] => JUndefined end)
  | JObj ms => Val (or_undefined (last_member (lit "0") ms))
  end.

(** [v?.name] and [v?.[0]] *)
Definition opt_prop (v : JsVal) (name : jsstring) : Result JsVal :=
  if nullish v then Val JUndefined else get_prop v name.

Definition opt_index0 (v : JsVal) : Result JsVal :=
  if nullish v then Val JUndefined else get_index0 v.

(** *** Number::toString on an exact decimal *)

Definition zeros (n : nat) : jsstring := repeat 48%N n.

Definition is_zero_digit (c : N) : bool := N.eqb c 48.

Definition exponent_digits (n : Z) : jsstring :=
  (if Z.ltb n 0 then [ch "-"] else [ch "+"]) ++ nat_digits (Z.abs_N n).

Definition Number_toString (m e : Z) : jsstring :=
  if Z.eqb m 0 then [48%N]
  else
    let all := nat_digits (Z.abs_N m) in
    let t := length (take_while is_zero_digit (rev all)) in
    let s := take (length all - t) all in
    let k := Z.of_nat (length s) in
    let n := (k + Z.of_nat t + e)%Z in
    let sign := if Z.ltb m 0 then [ch "-"] else [] in
    sign ++
    (if Z.leb k n && Z.leb n 21 then s ++ zeros (Z.to_nat (n - k))
     else if Z.ltb 0 n && Z.leb n 21 then
       take (Z.to_nat n) s ++ [ch "."] ++ drop (Z.to_nat n) s
     else if Z.ltb (-6) n && Z.leb n 0 then
       [48%N; ch "."] ++ zeros (Z.to_nat (- n)) ++ s
     else
       match s with
       | [d] => [d] ++ [ch "e"] ++ exponent_digits (n - 1)
       | d :: ds => [d; ch "."] ++ ds ++ [ch "e"] ++ exponent_digits (n - 1)
       | [] => []
       end).

(** [ToString(v)], as a template literal applies it. An array joins its
    elements with commas; an object without a [toString] member of its own
    prints as [object Object], and one with such a member (which is not
    callable) has no primitive value. *)
Fixpoint ToString (v : JsVal) : Result jsstring :=
  match v with
  | JUndefined => Val (lit "undefined")
  | JNull => Val (lit "null")
  | JBool true => Val (lit "true")
  | JBool false => Val (lit "false")
  | JNum m e => Val (Number_toString m e)
  | JStr s => Val s
  | JArr l =>
      (fix join (l : list JsVal) : Result jsstring :=
         match l with
         | [] => Val []
         | x :: r =>
             sx ← (if nullish x then Val [] else ToString x);
             match r with
             | [] => Val sx
             | _ :: _ => sr ← join r; Val (sx ++ [ch ","] ++ sr)
             end
         end) l
  | JObj ms =>
      if has_own (lit "toString") ms then Throw (Engine TypeError_to_primitive)
      else Val (lit "[object Object]")
  end.

(** ** JSON.parse *)

Inductive Parse (A : Type) : Type :=
| POk (a : A) (rest : jsstring)
| PSyntax
| PFuel.
Arguments POk {A} a rest.
Arguments PSyntax {A}.
Arguments PFuel {A}.

Definition DQUOTE : N := 34%N.

Definition is_json_ws (c : N) : bool :=
  N.eqb c 32 || N.eqb c 9 || N.eqb c 10 || N.eqb c 13.

Definition skip_ws (s : jsstring) : jsstring := drop_while is_json_ws s.

Definition hex_digit (c : N) : option N :=
  if is_digit c then Some (c - 48)%N
  else if in_range 97 102 c then Some (c - 87)%N
  else if in_range 65 70 c then Some (c - 55)%N
  else None.

Definition hex4 (a b c d : N) : option N :=
  match hex_digit a, hex_digit b, hex_digit c, hex_digit d with
  | Some x, Some y, Some z, Some w => Some (((x * 16 + y) * 16 + z) * 16 + w)%N
  | _, _, _, _ => None
  end.

Definition escape_char (c : N) : option N :=
  if N.eqb c DQUOTE then Some c
  else if N.eqb c (ch "\") then Some c
  else if N.eqb c (ch "/") then Some c
  else if N.eqb c (ch "b") then Some 8%N
  else if N.eqb c (ch "f") then Some 12%N
  else if N.eqb c (ch "n") then Some 10%N
  else if N.eqb c (ch "r") then Some 13%N
  else if N.eqb c (ch "t") then Some 9%N
  else None.

Definition cons_lexed (c : N) (r : option (jsstring * jsstring)) : option (jsstring * jsstring) :=
  match r with
  | Some (s, rest) => Some (c :: s, rest)
  | None => None
  end.

(** The characters of a string literal after its opening quote, and what follows the closing one. *)
Fixpoint lex_string (s : jsstring) : option (jsstring * jsstring) :=
  match s with
  | [] => None
  | c :: r =>
      if N.eqb c DQUOTE then Some ([], r)
      else if N.eqb c (ch "\") then
        match r with
        | [] => None
        | x :: r1 =>
            if N.eqb x (ch "u") then
              match r1 with
              | h1 :: h2 :: h3 :: h4 :: r2 =>
                  match hex4 h1 h2 h3 h4 with
                  | Some u => cons_lexed u (lex_string r2)
                  | None => None
                  end
              | _ => None
              end
            else
              match escape_char x with
              | Some u => cons_lexed u (lex_string r1)
              | None => None
              end
        end
      else if N.ltb c 32 then None
      else cons_lexed c (lex_string r)
  end.

Definition digits_value (ds : jsstring) : Z :=
  fold_left (fun acc c => (10 * acc + (Z.of_N c - 48))%Z) ds 0%Z.

(** A number literal: optional minus; 0, or digits without a leading zero;
    optional fraction; optional exponent. Each part gives what it read and
    the rest. *)
Definition lex_int (s : jsstring) : option (jsstring * jsstring) :=
  match s with
  | [] => None
  | d :: r =>
      if negb (is_digit d) then None
      else if N.eqb d 48 then Some ([d], r)
      else Some (d :: take_while is_digit r, drop_while is_digit r)
  end.

Definition lex_frac (s : jsstring) : option (jsstring * jsstring) :=
  match s with
  | c :: r =>
      if N.eqb c (ch ".") then
        match take_while is_digit r with
        | [] => None
        | fp => Some (fp, drop_while is_digit r)
        end
      else Some ([], s)
  | [] => Some ([], s)
  end.

Definition lex_exp_sign (s : jsstring) : bool * jsstring :=
  match s with
  | g :: r =>
      if N.eqb g (ch "-") then (true, r)
      else if N.eqb g (ch "+") then (false, r)
      else (false, s)
  | [] => (false, s)
  end.

Definition lex_exp (s : jsstring) : option (Z * jsstring) :=
  match s with
  | c :: r =>
      if N.eqb c (ch "e") || N.eqb c (ch "E") then
        match take_while is_digit (snd (lex_exp_sign r)) with
        | [] => None
        | ep =>
            Some ((if fst (lex_exp_sign r) then - digits_value ep else digits_value ep)%Z,
                  drop_while is_digit (snd (lex_exp_sign r)))
        end
      else Some (0%Z, s)
  | [] => Some (0%Z, s)
  end.

Definition lex_number (s : jsstring) : option (Z * Z * jsstring) :=
  let neg := match s with c :: _ => N.eqb c (ch "-") | [] => false end in
  match lex_int (if neg then tail s else s) with
  | None => None
  | Some (ip, s2) =>
      match lex_frac s2 with
      | None => None
      | Some (fp, s3) =>
          match lex_exp s3 with
          | None => None
          | Some (ex, s4) =>
              Some ((if neg then - digits_value (ip ++ fp) else digits_value (ip ++ fp))%Z,
                    (ex - Z.of_nat (length fp))%Z, s4)
          end
      end
  end.

Definition parse_literal (s : jsstring) : Parse JsVal :=
  match strip_prefix (lit "true") s with
  | Some r => POk (JBool true) r
  | None =>
      match strip_prefix (lit "false") s with
      | Some r => POk (JBool false) r
      | None =>
          match strip_prefix (lit "null") s with
          | Some r => POk JNull r
          | None => PSyntax
          end
      end
  end.

(** Recursive descent over the JSON grammar. [fuel] bounds the depth of the
    calls; [json_fuel_enough] below shows that [JSON_parse] never runs out. *)
Fixpoint parse_value (fuel : nat) (s : jsstring) {struct fuel} : Parse JsVal :=
  match fuel with
  | O => PFuel
  | S f =>
      match skip_ws s with
      | [] => PSyntax
      | c :: r =>
          if N.eqb c (ch "[") then
            match skip_ws r with
            | [] => PSyntax
            | d :: r' =>
                if N.eqb d (ch "]") then POk (JArr []) r'
                else
                  match parse_elements f r with
                  | POk l rest => POk (JArr l) rest
                  | PSyntax => PSyntax
                  | PFuel => PFuel
                  end
            end
          else if N.eqb c (ch "{") then
            match skip_ws r with
            | [] => PSyntax
            | d :: r' =>
                if N.eqb d (ch "}") then POk (JObj []) r'
                else
                  match parse_members f r with
                  | POk ms rest => POk (JObj ms) rest
                  | PSyntax => PSyntax
                  | PFuel => PFuel
                  end
            end
          else if N.eqb c DQUOTE then
            match lex_string r with
            | Some (str, rest) => POk (JStr str) rest
            | None => PSyntax
            end
          else if N.eqb c (ch "-") || is_digit c then
            match lex_number (c :: r) with
            | Some (m, e, rest) => POk (JNum m e) rest
            | None => PSyntax
            end
          else parse_literal (c :: r)
      end
  end
with parse_elements (fuel : nat) (s : jsstring) {struct fuel} : Parse (list JsVal) :=
  match fuel with
  | O => PFuel
  | S f =>
      match parse_value f s with
      | POk v rest =>
          match skip_ws rest with
          | [] => PSyntax
          | c :: r =>
              if N.eqb c (ch ",") then
                match parse_elements f r with
                | POk l rest' => POk (v :: l) rest'
                | PSyntax => PSyntax
                | PFuel => PFuel
                end
              else if N.eqb c (ch "]") then POk [v] r
              else PSyntax
          end
      | PSyntax => PSyntax
      | PFuel => PFuel
      end
  end
with parse_members (fuel : nat) (s : jsstring) {struct fuel} : Parse (list (jsstring * JsVal)) :=
  match fuel with
  | O => PFuel
  | S f =>
      match skip_ws s with
      | [] => PSyntax
      | c :: r =>
          if N.eqb c DQUOTE then
            match lex_string r with
            | None => PSyntax
            | Some (k, rest) =>
                match skip_ws rest with
                | [] => PSyntax
                | c2 :: r2 =>
                    if N.eqb c2 (ch ":") then
                      match parse_value f r2 with
                      | POk v rest2 =>
                          match skip_ws rest2 with
                          | [] => PSyntax
                          | c3 :: r3 =>
                              if N.eqb c3 (ch ",") then
                                match parse_members f r3 with
                                | POk ms rest3 => POk ((k, v) :: ms) rest3
                                | PSyntax => PSyntax
                                | PFuel => PFuel
                                end
                              else if N.eqb c3 (ch "}") then POk [(k, v)] r3
                              else PSyntax
                          end
                      | PSyntax => PSyntax
                      | PFuel => PFuel
                      end
                    else PSyntax
                end
            end
          else PSyntax
      end
  end.

Definition json_fuel (s : jsstring) : nat := 2 * length s + 2.

(** [JSON.parse(s)]: [None] stands for the [SyntaxError] it throws. *)
Definition JSON_parse (s : jsstring) : option JsVal :=
  match parse_value (json_fuel s) s with
  | POk v rest => match skip_ws rest with [] => Some v | _ :: _ => None end
  | PSyntax => None
  | PFuel => None
  end.

(** ** The upstream services and the HTTP response *)

(** An outgoing request. [GenerateContent text] is the POST to the text
    model with [contents[0].parts[0].text = text]; [Predict prompt] is the
    POST to the image model with [instances[0].prompt = prompt], one sample,
    aspect ratio 16:9; [PutObject objectKey filename base64Data] is the
    [axios.put] of the multipart form (one field, [file], the bytes decoded
    from [base64Data]) to the storage path of [objectKey]. *)
Inductive Call : Type :=
| GenerateContent (text : jsstring)
| Predict (prompt : jsstring)
| PutObject (objectKey filename base64Data : jsstring).

(** What [fetch] resolves to: [response.ok] and the body, read by
    [response.json()] or [response.text()]; or its rejection. *)
Inductive FetchResult : Type :=
| Resp (ok : bool) (body : jsstring)
| NetFail.

(** What [axios.put] meets: a response with a status and its decoded
    [data], or none. It resolves on a 2xx status only. *)
Inductive AxiosResult : Type :=
| AxiosResp (status : Z) (data : JsVal)
| AxiosNoResponse.

(** [res.status(status).json(JObj body)]; a member that is [undefined] is
    left out when the body is serialised. *)
Record HttpResponse : Type := { status : Z; body : list (jsstring * JsVal) }.

(** The request body, as [express.json()] hands it over; a field that is
    absent is [JUndefined]. *)
Record Request : Type := {
  prompt : JsVal;
  selectedOption : JsVal;
  refinementInstruction : JsVal;
  isCustom : JsVal;
  imageBase64 : JsVal
}.

Definition json_ok (b : list (jsstring * JsVal)) : HttpResponse :=
  {| status := 200; body := b |}.

Definition json_status (st : Z) (b : list (jsstring * JsVal)) : HttpResponse :=
  {| status := st; body := b |}.

Definition field (r : HttpResponse) (name : jsstring) : option JsVal :=
  last_member name (body r).

Definition concepts : list jsstring :=
  [ lit "minimalist with bold typography";
    lit "with data visualization focus";
    lit "with icon-heavy design" ].

(** *** Promise.all *)

(** The aggregate promise: the [values] array, the count of elements still
    pending, and the settlement once it has happened. *)
Record AllState : Type := {
  values : list JsVal;
  remaining : nat;
  settled : option (Result (list JsVal))
}.

Definition all_init (n : nat) : AllState :=
  {| values := replicate n JUndefined; remaining := n;
     settled := if Nat.eqb n 0 then Some (Val []) else None |}.

(** Promise [i] of the input settles with [outcomes !! i]: a fulfilment is
    stored at index [i] and the aggregate resolves when nothing is pending;
    a rejection rejects the aggregate. A settled aggregate stays as it is. *)
Definition settle_one (outcomes : list (Result JsVal)) (st : AllState) (i : nat) : AllState :=
  match settled st with
  | Some _ => st
  | None =>
      match outcomes !! i with
      | Some (Val v) =>
          let vs := <[i:=v]> (values st) in
          let r := pred (remaining st) in
          {| values := vs; remaining := r;
             settled := if Nat.eqb r 0 then Some (Val vs) else None |}
      | Some (Throw e) =>
          {| values := values st; remaining := remaining st; settled := Some (Throw e) |}
      | None => st
      end
  end.

(** [await Promise.all(promises)] when the promises settle in the order
    [order]; [None] when the aggregate never settles. *)
Definition Promise_all (order : list nat) (outcomes : list (Result JsVal))
  : option (Result (list JsVal)) :=
  settled (fold_left (settle_one outcomes) order (all_init (length outcomes))).

(** *** Message and template texts *)

Definition data_uri (b64 : jsstring) : jsstring := lit "data:image/png;base64," ++ b64.

Definition option_failed (index : nat) : jsstring :=
  lit "Option " ++ nat_digits (N.of_nat (index + 1)) ++ lit " generation failed".

Definition sketch_prompt (idea concept : jsstring) : jsstring :=
  lit "Simple rough sketch of a business pitch slide for: " ++ idea
  ++ lit ". Style: " ++ concept
  ++ lit ". Wireframe style, basic layout, minimal detail, grayscale or simple colors, placeholder text blocks. Think of this as a preliminary concept sketch.".

Definition final_text_prompt (idea concept : jsstring) : jsstring :=
  lit "You are a professional business presentation designer. Create a sophisticated business pitch slide for this idea: "
  ++ [DQUOTE] ++ idea ++ [DQUOTE; LF; LF]
  ++ lit "Design style: " ++ concept ++ [LF; LF]
  ++ lit "First, provide a concise slide concept summary (for display to user) in this exact format:" ++ [LF]
  ++ lit "SLIDE CONCEPT:" ++ [LF]
  ++ [bullet] ++ lit " Headline: [short, catchy title]" ++ [LF]
  ++ [bullet] ++ lit " Style: " ++ concept ++ [LF]
  ++ [bullet] ++ lit " Key Points: [3 short bullet points max 6 words each]" ++ [LF; LF]
  ++ lit "Then, describe the visual layout for image generation. Be specific about typography, colors, layout, and visual elements for creating an investor-ready pitch slide.".

Definition final_image_prompt (fullDescription : jsstring) : jsstring :=
  lit "Ultra high-end professional business pitch slide: " ++ fullDescription
  ++ lit ". Stunning visual design, investor-ready quality, crisp typography, perfect color harmony, print-quality resolution, modern aesthetic, Appropriate for Silicon Valley VC presentations.".

Definition final_fallback (idea concept : jsstring) : jsstring :=
  [bullet] ++ lit " Headline: " ++ substring0 50 idea ++ lit "..." ++ [LF]
  ++ [bullet] ++ lit " Style: " ++ concept ++ [LF]
  ++ [bullet] ++ lit " Key Points: Professional pitch design".

Definition suggestions_prompt (idea : jsstring) : jsstring :=
  lit "You are an expert presentation designer. Based on this business idea: "
  ++ [DQUOTE] ++ idea ++ [DQUOTE; LF; LF]
  ++ lit "Suggest 3 specific ways to IMPROVE and REFINE a pitch slide for this idea. Each suggestion should be actionable and different from the others."
  ++ [LF; LF]
  ++ lit "Format your response as a JSON array of strings, like this:" ++ [LF]
  ++ lit "[" ++ [LF]
  ++ lit "  " ++ [DQUOTE] ++ lit "Make it more visual with data charts and infographics" ++ [DQUOTE] ++ lit "," ++ [LF]
  ++ lit "  " ++ [DQUOTE] ++ lit "Add customer testimonials and social proof" ++ [DQUOTE] ++ lit "," ++ [LF]
  ++ lit "  " ++ [DQUOTE] ++ lit "Emphasize the revenue model with clear financial projections" ++ [DQUOTE] ++ [LF]
  ++ lit "]" ++ [LF; LF]
  ++ lit "Provide only the JSON array, no other text.".

Definition fallback_suggestions : list JsVal :=
  [ JStr (lit "Add more visual elements and data visualizations");
    JStr (lit "Emphasize the unique value proposition more prominently");
    JStr (lit "Include social proof and credibility indicators") ].

Definition filler_suggestion : JsVal :=
  JStr (lit "Enhance the slide with more professional design elements").

Definition refine_text_prompt (idea concept instruction : jsstring) : jsstring :=
  lit "You are a professional business presentation designer. Create a REFINED business pitch slide."
  ++ [LF; LF]
  ++ lit "Original idea: " ++ [DQUOTE] ++ idea ++ [DQUOTE; LF]
  ++ lit "Design style: " ++ concept ++ [LF]
  ++ lit "REFINEMENT: " ++ instruction ++ [LF; LF]
  ++ lit "First, provide a concise slide concept summary (for display to user) in this exact format:" ++ [LF]
  ++ lit "SLIDE CONCEPT:" ++ [LF]
  ++ [bullet] ++ lit " Headline: [short, catchy title]" ++ [LF]
  ++ [bullet] ++ lit " Style: " ++ concept ++ [LF]
  ++ [bullet] ++ lit " Refinement: " ++ substring0 30 instruction ++ lit "..." ++ [LF]
  ++ [bullet] ++ lit " Key Points: [3 short bullet points max 6 words each]" ++ [LF; LF]
  ++ lit "Then, describe the visual layout for image generation incorporating the refinement. Be specific about typography, colors, layout, and visual elements for creating an improved investor-ready pitch slide.".

Definition refine_image_prompt (fullDescription : jsstring) : jsstring :=
  lit "Ultra high-end professional business pitch slide (REFINED VERSION): " ++ fullDescription
  ++ lit ". Stunning visual design, investor-ready quality, crisp typography, perfect color harmony, print-quality resolution, modern aesthetic, Appropriate for Silicon Valley VC presentations. This is an IMPROVED, more polished version with enhanced visual appeal.".

Definition refine_fallback (idea concept : jsstring) : jsstring :=
  [bullet] ++ lit " Headline: " ++ substring0 40 idea ++ lit "..." ++ [LF]
  ++ [bullet] ++ lit " Style: " ++ concept ++ [LF]
  ++ [bullet] ++ lit " Refinement: Applied".

Definition object_key (slug timestamp : jsstring) : jsstring :=
  lit "slides/" ++ slug ++ lit "/" ++ timestamp ++ lit ".png".

(** [while (suggestions.length < 3) suggestions.push(filler)]; three rounds
    always reach the exit of the loop ([pad_loop_exits]). *)
Fixpoint pad_loop (rounds : nat) (suggestions : list JsVal) : list JsVal :=
  match rounds with
  | O => suggestions
  | S n =>
      if Nat.ltb (length suggestions) 3
      then pad_loop n (suggestions ++ [filler_suggestion])
      else suggestions
  end.

(** [v > 0] on a parsed value: [undefined] and an object without primitive
    number are NaN, [null] is 0, [true] is 1, a string is read as a numeric
    literal ([string_positive] tells whether that number is positive). *)
Definition gt_zero (string_positive : jsstring -> bool) (v : JsVal) : Result bool :=
  match v with
  | JUndefined | JNull => Val false
  | JBool b => Val b
  | JNum m _ => Val (Z.ltb 0 m)
  | JStr s => Val (string_positive s)
  | JArr _ => s ← ToString v; Val (string_positive s)
  | JObj ms =>
      if has_own (lit "toString") ms then Throw (Engine TypeError_to_primitive)
      else Val false
  end.

(** The integer a number stands for, when it is one. *)
Definition num_integer (m e : Z) : option Z :=
  if Z.leb 0 e then Some (m * 10 ^ e)%Z
  else if Z.eqb (m mod 10 ^ (- e)) 0 then Some (m / 10 ^ (- e))%Z
  else None.

(** What [concepts[key]] finds: a value of the array itself, or a property
    the array inherits, kept as the text a template literal prints for it. *)
Inductive Looked : Type :=
| Own (v : JsVal)
| Inherited (text : jsstring).

Definition concept_at (i : nat) : JsVal :=
  match concepts !! i with
  | Some c => JStr c
  | None => JUndefined
  end.

(** ** Start of the server *)

(** [process.env] once [dotenv] has run: a variable is a string or is not set. *)
Definition Env : Type := string -> option jsstring.

(** [process.env.NAME] *)
Definition env_value (env : Env) (name : string) : JsVal :=
  match env name with
  | Some s => JStr s
  | None => JUndefined
  end.

Definition PORT (env : Env) : JsVal := js_or (env_value env "PORT") (int_num 5000).

Definition GOOGLE_API_KEY (env : Env) : JsVal :=
  js_or (env_value env "GEMINI_API_KEY") (env_value env "GOOGLE_GENAI_API_KEY").

Definition INSFORGE_API_KEY (env : Env) : JsVal :=
  js_or (env_value env "INSFORGE_STORAGE_KEY") (env_value env "INSFORGE_API_KEY").

Definition INSFORGE_BASE_URL (env : Env) : JsVal :=
  js_or (env_value env "INSFORGE_STORAGE_URL")
        (JStr (lit "https://dx2ji8ea.us-west.insforge.app")).

(** What the module does when it is loaded: [process.exit(code)] after a
    line on the error console, or [app.listen(port)]. *)
Inductive Startup : Type :=
| Exited (code : Z) (error : jsstring)
| Listening (port : JsVal).

Definition startup (env : Env) : Startup :=
  if negb (truthy (GOOGLE_API_KEY env)) then
    Exited 1 (lit "ERROR: GEMINI_API_KEY or GOOGLE_GENAI_API_KEY environment variable is not set")
  else if negb (truthy (INSFORGE_API_KEY env)) then
    Exited 1 (lit "ERROR: INSFORGE_STORAGE_KEY or INSFORGE_API_KEY environment variable is not set")
  else Listening (PORT env).

(** The variable [name] is set to a text that is not empty. *)
Definition is_set (env : Env) (name : string) : Prop :=
  exists s, env name = Some s /\ s <> [].

(** ** Sample services and requests *)

Module Sample.

(** A JSON text written with single quotes in place of double quotes. *)
Definition json_text (s : string) : jsstring :=
  map (fun c => if N.eqb c 39 then DQUOTE else c) (lit s).

Definition lower_ascii (s : jsstring) : jsstring :=
  map (fun c => if is_upper c then (c + 32)%N else c) s.

Definition engine_text (e : EngineError) : jsstring :=
  match e with
  | TypeError_nullish_property p =>
      lit "Cannot read properties of undefined (reading '" ++ p ++ lit "')"
  | TypeError_not_a_function m => m ++ lit " is not a function"
  | TypeError_to_primitive => lit "Cannot convert object to primitive value"
  | SyntaxError_json => lit "Unexpected token in JSON"
  | FetchFailed => lit "fetch failed"
  end.

Definition axios_text (r : option (Z * JsVal)) : jsstring :=
  match r with
  | Some (st, _) => lit "Request failed with status code " ++ Number_toString st 0
  | None => lit "Network Error"
  end.

Definition numeric_positive (s : jsstring) : bool :=
  match s with
  | c :: r => is_digit c && negb (N.eqb c 48) && forallb is_digit r
  | [] => false
  end.

Definition inherited (name : jsstring) : option jsstring :=
  if str_eqb name (lit "join") then Some (lit "function join() { [native code] }")
  else None.

Definition idea : jsstring := lit "A Flying Car! Service".

Definition request : Request :=
  {| prompt := JStr idea;
     selectedOption := int_num 1;
     refinementInstruction := JStr (lit "Add customer testimonials and social proof");
     isCustom := JBool false;
     imageBase64 := JStr (lit "data:image/png;base64,QUJD") |}.

Definition style : jsstring := lit "with data visualization focus".

(** The body of the text model for the candidate text [t] (written as the
    inside of a JSON string literal). *)
Definition text_body (t : jsstring) : jsstring :=
  json_text "{'candidates':[{'content':{'parts':[{'text':'" ++ t ++ json_text "'}]}}]}".

Definition image_body : jsstring :=
  json_text "{'predictions':[{'bytesBase64Encoded':'QUJD','mimeType':'image/png'}]}".

(** A network where every text call gets [text] and every image call [image]. *)
Definition fetch_with (text image : FetchResult) (c : Call) : FetchResult :=
  match c with
  | GenerateContent _ => text
  | Predict _ => image
  | PutObject _ _ _ => NetFail
  end.

Definition fetch_no_predictions : Call -> FetchResult :=
  fetch_with (Resp true (text_body (lit "A bold slide.")))
             (Resp true (json_text "{'predictions':[]}")).

(** A text answer with a concept block (inside of the JSON string literal),
    the text it stands for, and a network that gives it with an image. *)
Definition slide_text_literal : jsstring :=
  lit "Sure.\n\nSLIDE CONCEPT:\n" ++ [bullet] ++ lit " Headline: **SkyWay Rides**\n"
  ++ [bullet] ++ lit " Style: with data visualization focus\n\nLayout: a big title.".


Definition fetch_slide : Call -> FetchResult :=
  fetch_with (Resp true (text_body slide_text_literal)) (Resp true image_body).

(** The option entry made from [image_body] for a style. *)
Definition option_entry_of (index : Z) (concept : jsstring) : JsVal :=
  JObj [ (lit "id", int_num (index + 1));
         (lit "concept", JStr concept);
         (lit "imageBase64", JStr (lit "QUJD"));
         (lit "image", JStr (lit "data:image/png;base64,QUJD")) ].

(** A network where the image call for the second style is refused. *)
Definition fetch_second_option_fails (c : Call) : FetchResult :=
  match c with
  | Predict p =>
      if str_eqb p (sketch_prompt idea (lit "with data visualization focus"))
      then Resp false (lit "quota exceeded")
      else Resp true image_body
  | _ => NetFail
  end.



(** Text answers of the model for /get-refine-options. *)
Definition two_suggestions_text : jsstring :=
  lit "Here you go: " ++ json_text "['Use charts', 'Add logos']" ++ lit " Enjoy.".

Definition fetch_two_suggestions : Call -> FetchResult :=
  fetch_with
    (Resp true (text_body (lit "Here you go: " ++ json_text "[\'Use charts\', \'Add logos\']"
                           ++ lit " Enjoy.")))
    NetFail.

(** The model answers with an array of objects, not of strings. *)
Definition fetch_objects : Call -> FetchResult :=
  fetch_with
    (Resp true
       (text_body (json_text "[{\'tip\':\'Use charts\'}, {\'tip\':\'Add logos\'}, {\'tip\':\'Show traction\'}]")))
    NetFail.

Definition no_suggestions_text : jsstring := lit "Sorry, I have no suggestions.".

Definition fetch_no_suggestions : Call -> FetchResult :=
  fetch_with (Resp true (text_body no_suggestions_text)) NetFail.



Definition request_string_one : Request :=
  {| prompt := JStr idea;
     selectedOption := JStr (lit "1");
     refinementInstruction := JStr (lit "Add customer testimonials and social proof");
     isCustom := JBool false;
     imageBase64 := JUndefined |}.

(** An upload request with the image and no [prompt]. *)
Definition request_without_prompt : Request :=
  {| prompt := JUndefined;
     selectedOption := JUndefined;
     refinementInstruction := JUndefined;
     isCustom := JUndefined;
     imageBase64 := JStr (lit "data:image/png;base64,QUJD") |}.


(** Networks whose image answer has a first prediction without image
    bytes, whose text answer is the JSON text [null], has no candidate, or
    has a number as candidate text. *)
Definition fetch_no_bytes : Call -> FetchResult :=
  fetch_with (Resp true (text_body (lit "A bold slide.")))
             (Resp true (json_text "{'predictions':[{'mimeType':'image/png'},{'bytesBase64Encoded':'QUJD'}]}")).

Definition fetch_null_text : Call -> FetchResult :=
  fetch_with (Resp true (lit "null")) (Resp true image_body).

Definition fetch_no_candidate : Call -> FetchResult :=
  fetch_with (Resp true (lit "{}")) (Resp true image_body).



Definition stored_object : list (jsstring * JsVal) :=
  [ (lit "key", JStr (lit "slides/a-flying-car-service/1762000000000.png"));
    (lit "url", JStr (lit "/api/storage/buckets/slides/objects/k1"));
    (lit "bucket", JStr (lit "slides"));
    (lit "uploadedAt", JStr (lit "2025-11-01T12:26:40.000Z")) ].

Definition put_nested (c : Call) : AxiosResult :=
  AxiosResp 201 (JObj [(lit "data", JObj stored_object)]).

(** An environment with the second name of each key and an empty [PORT]. *)
Definition env_second_names : Env :=
  fun name =>
    if String.eqb name "GOOGLE_GENAI_API_KEY" then Some (lit "g-key")
    else if String.eqb name "INSFORGE_API_KEY" then Some (lit "i-key")
    else if String.eqb name "GEMINI_API_KEY" then Some []
    else if String.eqb name "PORT" then Some []
    else None.

End Sample.

Section Server.

(** [fetch(url, init)] and [axios.put(url, form, config)], by the request made. *)
Variable fetch : Call -> FetchResult.
Variable axios_put : Call -> AxiosResult.
(** [Date.now()] *)
Variable now : Z.
(** [String.prototype.toLowerCase] *)
Variable toLowerCase : jsstring -> jsstring.
(** The [message] of an error the engine or axios made. *)
Variable engine_message : EngineError -> jsstring.
Variable axios_message : option (Z * JsVal) -> jsstring.
(** Whether a string, read as a numeric literal, is a positive number. *)
Variable string_positive : jsstring -> bool.
(** The properties an array inherits ([map], [constructor], ...), with the
    text a template literal prints for their value. *)
Variable Array_inherited : jsstring -> option jsstring.

Definition message_of (e : Exn) : jsstring :=
  match e with
  | UserError m => m
  | Engine x => engine_message x
  | AxiosError r => axios_message r
  end.

(** A handler body: it appends to the list of upstream calls and may throw. *)
Definition M (A : Type) : Type := list Call -> Result A * list Call.

#[local] Instance M_ret : MRet M := fun A a tr => (Val a, tr).
#[local] Instance M_bind : MBind M :=
  fun A B (k : A -> M B) (m : M A) tr =>
    match m tr with
    | (Val a, tr') => k a tr'
    | (Throw e, tr') => (Throw e, tr')
    end.

Definition lift {A : Type} (r : Result A) : M A := fun tr => (r, tr).

Definition throw {A : Type} (e : Exn) : M A := lift (Throw e).

(** [await fetch(...)]: the call is made, then the answer is awaited. *)
Definition await_fetch (c : Call) : M (bool * jsstring) :=
  fun tr =>
    (match fetch c with
     | Resp ok b => Val (ok, b)
     | NetFail => Throw (Engine FetchFailed)
     end, tr ++ [c]).

(** [await response.json()] *)
Definition response_json (b : jsstring) : Result JsVal :=
  match JSON_parse b with
  | Some v => Val v
  | None => Throw (Engine SyntaxError_json)
  end.

(** [try { body } catch (error) { res.status(500).json({ error: error.message }) }] *)
Definition run_handler (h : M HttpResponse) : list Call * HttpResponse :=
  match h [] with
  | (Val r, tr) => (tr, r)
  | (Throw e, tr) => (tr, json_status 500 [(lit "error", JStr (message_of e))])
  end.

(** [concepts[key]] for a string key. *)
Definition lookup_concept (key : jsstring) : Looked :=
  if str_eqb key (lit "0") then Own (concept_at 0)
  else if str_eqb key (lit "1") then Own (concept_at 1)
  else if str_eqb key (lit "2") then Own (concept_at 2)
  else if str_eqb key (lit "length") then Own (int_num 3)
  else
    match Array_inherited key with
    | Some text => Inherited text
    | None => Own JUndefined
    end.

(** [concepts[selectedOption]]: a number names the element at that index
    when it is a non-negative integer, and nothing otherwise; [null] and
    the booleans name nothing; any other value is converted to a string. *)
Definition selected_concept (sel : JsVal) : Result Looked :=
  match sel with
  | JUndefined | JNull | JBool _ => Val (Own JUndefined)
  | JNum m e =>
      match num_integer m e with
      | Some z => if Z.leb 0 z then Val (Own (concept_at (Z.to_nat z))) else Val (Own JUndefined)
      | None => Val (Own JUndefined)
      end
  | JStr _ | JArr _ | JObj _ => key ← ToString sel; Val (lookup_concept key)
  end.

(** The text a template literal prints for [selectedConcept]. *)
Definition concept_text (c : Looked) : Result jsstring :=
  match c with
  | Own v => ToString v
  | Inherited text => Val text
  end.

(** [v.method(...)] for a method of strings: the receiver has it only when it is a string. *)
Definition as_string (method : jsstring) (v : JsVal) : Result jsstring :=
  match v with
  | JStr s => Val s
  | JUndefined | JNull => Throw (Engine (TypeError_nullish_property method))
  | _ => Throw (Engine (TypeError_not_a_function method))
  end.

(** [data.candidates?.[0]?.content?.parts?.[0]?.text] *)
Definition candidate_text (textData : JsVal) : Result JsVal :=
  c ← get_prop textData (lit "candidates");
  c0 ← opt_index0 c;
  content ← opt_prop c0 (lit "content");
  parts ← opt_prop content (lit "parts");
  p0 ← opt_index0 parts;
  opt_prop p0 (lit "text").

(** [data.predictions?.[0]?.bytesBase64Encoded] *)
Definition first_prediction_opt (data : JsVal) : Result JsVal :=
  p ← get_prop data (lit "predictions");
  p0 ← opt_index0 p;
  opt_prop p0 (lit "bytesBase64Encoded").

(** *** POST /generate-options *)

(** The body of the async callback of [concepts.map] after its call is
    made: what the promise of the concept at [index] settles with, for the
    printed idea [p]. *)
Definition option_outcome (index : nat) (concept p : jsstring) : Result JsVal :=
  match fetch (Predict (sketch_prompt p concept)) with
  | NetFail => Throw (Engine FetchFailed)
  | Resp ok b =>
      if negb ok then Throw (UserError (option_failed index))
      else
        data ← response_json b;
        b64 ← first_prediction_opt data;
        img ← ToString b64;
        Val (JObj [ (lit "id", int_num (Z.of_nat (index + 1)));
                    (lit "concept", JStr concept);
                    (lit "imageBase64", b64);
                    (lit "image", JStr (data_uri img)) ])
  end.

(** The async callback for one concept. Its call, if the prompt can be
    printed, is made when [map] runs; its outcome settles the promise. *)
Definition option_task (idea : JsVal) (index : nat) (concept : jsstring) : M (Result JsVal) :=
  fun tr =>
    match ToString idea with
    | Throw e => (Val (Throw e), tr)
    | Val p => (Val (option_outcome index concept p), tr ++ [Predict (sketch_prompt p concept)])
    end.

Fixpoint map_tasks (idea : JsVal) (index : nat) (cs : list jsstring) : M (list (Result JsVal)) :=
  match cs with
  | [] => mret []
  | c :: r =>
      o ← option_task idea index c;
      os ← map_tasks idea (S index) r;
      mret (o :: os)
  end.

(** [order] is the order in which the three promises settle. The result
    is [None] when the handler never answers. *)
Definition generate_options (order : list nat) (req : Request)
  : option (list Call * HttpResponse) :=
  if negb (truthy (prompt req)) then
    Some ([], json_status 400 [(lit "error", JStr (lit "Prompt is required"))])
  else
    match map_tasks (prompt req) 0 concepts [] with
    | (Val outcomes, tr) =>
        match Promise_all order outcomes with
        | Some (Val options) =>
            Some (tr, json_ok [(lit "success", JBool true); (lit "options", JArr options)])
        | Some (Throw e) =>
            Some (tr, json_status 500 [(lit "error", JStr (message_of e))])
        | None => None
        end
    | (Throw e, tr) => Some (tr, json_status 500 [(lit "error", JStr (message_of e))])
    end.

(** The concept summary shown to the user: the marked block of the model's
    text, or the fallback built by [fallback] from the idea. *)
Definition concept_display (fullDescription : jsstring)
    (fallback : Result jsstring) : Result jsstring :=
  match match_concept fullDescription with
  | Some block => Val (remove_bold (trim block))
  | None => fallback
  end.

(** [imageData.predictions && imageData.predictions.length > 0] *)
Definition has_predictions (imageData : JsVal) : Result bool :=
  p ← get_prop imageData (lit "predictions");
  if truthy p then
    len ← get_prop p (lit "length");
    gt_zero string_positive len
  else Val false.

(** Step 1 of /generate-final and /refine-slide: the text call and the
    concept summary. It gives [fullDescription] and [conceptDisplay]. *)
Definition describe (req : Request) (text_prompt : jsstring)
    (text_failed : jsstring) (fallback : Result jsstring) : M (jsstring * jsstring) :=
  '(ok, b) ← await_fetch (GenerateContent text_prompt);
  if negb ok then throw (UserError text_failed)
  else
    textData ← lift (response_json b);
    t ← lift (candidate_text textData);
    fullDescription ← lift (as_string (lit "match") (js_or t (prompt req)));
    conceptDisplay ← lift (concept_display fullDescription fallback);
    mret (fullDescription, conceptDisplay).

(** Step 2: the image call and the answer. [extra] is what the success
    body has beyond the common members. *)
Definition draw (image_prompt conceptDisplay : jsstring)
    (extra : list (jsstring * JsVal)) : M HttpResponse :=
  '(iok, ib) ← await_fetch (Predict image_prompt);
  if negb iok then
    mret (json_status 500 [ (lit "error", JStr (lit "Image generation failed"));
                            (lit "details", JStr ib) ])
  else
    imageData ← lift (response_json ib);
    found ← lift (has_predictions imageData);
    if (found : bool) then
      p ← lift (get_prop imageData (lit "predictions"));
      p0 ← lift (get_index0 p);
      b64 ← lift (get_prop p0 (lit "bytesBase64Encoded"));
      img ← lift (ToString b64);
      mret (json_ok ([ (lit "success", JBool true);
                       (lit "image", JStr (data_uri img));
                       (lit "imageBase64", b64);
                       (lit "description", JStr conceptDisplay) ] ++ extra))
    else
      mret (json_status 500 [(lit "error", JStr (lit "No image generated"))]).

Definition describe_and_draw (req : Request) (text_prompt : jsstring)
    (text_failed : jsstring) (fallback : Result jsstring)
    (image_prompt : jsstring -> jsstring) (extra : list (jsstring * JsVal))
  : M HttpResponse :=
  '(fullDescription, conceptDisplay) ← describe req text_prompt text_failed fallback;
  draw (image_prompt fullDescription) conceptDisplay extra.

(** *** POST /generate-final *)

Definition generate_final (req : Request) : list Call * HttpResponse :=
  if negb (truthy (prompt req)) || is_undefined (selectedOption req) then
    ([], json_status 400 [(lit "error", JStr (lit "Prompt and selected option are required"))])
  else
    run_handler (
      selectedConcept ← lift (selected_concept (selectedOption req));
      idea ← lift (ToString (prompt req));
      style ← lift (concept_text selectedConcept);
      describe_and_draw req (final_text_prompt idea style)
        (lit "Text generation failed")
        (p ← as_string (lit "substring") (prompt req); Val (final_fallback p style))
        final_image_prompt []).

(** *** POST /get-refine-options *)

(** The inner [try]: the bracketed span is parsed when there is one;
    [suggestions] stays the empty array when there is none; the [catch]
    puts the three fallback suggestions. *)
Definition parse_suggestions (suggestionsText : JsVal) : JsVal :=
  match as_string (lit "match") suggestionsText with
  | Throw _ => JArr fallback_suggestions
  | Val text =>
      match match_bracket_span text with
      | None => JArr []
      | Some span =>
          match JSON_parse span with
          | Some v => v
          | None => JArr fallback_suggestions
          end
      end
  end.

(** The padding loop and [slice(0, 3)] on the array. [parse_suggestions]
    gives nothing but arrays ([parse_suggestions_array]: a bracketed span
    that parses is an array); the other cases stand for the TypeError of a
    value that has no [push] or [slice]. *)
Definition exactly_three (suggestions : JsVal) : Result JsVal :=
  match suggestions with
  | JArr l => Val (JArr (take 3 (pad_loop 3 l)))
  | JUndefined | JNull => Throw (Engine (TypeError_nullish_property (lit "length")))
  | _ => Throw (Engine (TypeError_not_a_function (lit "slice")))
  end.

Definition get_refine_options (req : Request) : list Call * HttpResponse :=
  if negb (truthy (prompt req)) || is_undefined (selectedOption req) then
    ([], json_status 400 [(lit "error", JStr (lit "Prompt and selected option are required"))])
  else
    run_handler (
      idea ← lift (ToString (prompt req));
      '(ok, b) ← await_fetch (GenerateContent (suggestions_prompt idea));
      if negb ok then throw (UserError (lit "Refinement suggestions generation failed"))
      else
        textData ← lift (response_json b);
        t ← lift (candidate_text textData);
        suggestions ← lift (exactly_three (parse_suggestions (js_or t (JStr []))));
        mret (json_ok [(lit "success", JBool true); (lit "suggestions", suggestions)])).

(** *** POST /refine-slide *)

Definition refine_slide (req : Request) : list Call * HttpResponse :=
  if negb (truthy (prompt req)) || is_undefined (selectedOption req)
     || negb (truthy (refinementInstruction req)) then
    ([], json_status 400
           [(lit "error", JStr (lit "Prompt, selected option, and refinement instruction are required"))])
  else
    run_handler (
      selectedConcept ← lift (selected_concept (selectedOption req));
      idea ← lift (ToString (prompt req));
      style ← lift (concept_text selectedConcept);
      instruction ← lift (ToString (refinementInstruction req));
      ins ← lift (as_string (lit "substring") (refinementInstruction req));
      describe_and_draw req (refine_text_prompt idea style ins)
        (lit "Refined description generation failed")
        (p ← as_string (lit "substring") (prompt req); Val (refine_fallback p style))
        refine_image_prompt [(lit "isRefinement", JBool true)]).

(** *** POST /upload *)

(** [prompt.toLowerCase().replace(/[^a-z0-9]+/g, '-').replace(/^-+|-+$/g, '').substring(0, 50)] *)
Definition sanitizedPrompt (idea : jsstring) : jsstring :=
  substring0 50 (replace_edge_hyphens (replace_non_alnum false (toLowerCase idea))).

(** [error.response?.data || error.message] *)
Definition error_details (e : Exn) : JsVal :=
  js_or (match e with
         | AxiosError (Some (_, data)) => data
         | _ => JUndefined
         end) (JStr (message_of e)).

(** The answer to a resolved [axios.put], from [uploadResponse.data]. *)
Definition upload_answer (objectKey : jsstring) (rdata : JsVal) : Result HttpResponse :=
  inner ← get_prop rdata (lit "data");
  k ← get_prop (js_or inner rdata) (lit "key");
  u ← get_prop (js_or inner rdata) (lit "url");
  bk ← get_prop (js_or inner rdata) (lit "bucket");
  up ← get_prop (js_or inner rdata) (lit "uploadedAt");
  Val (json_ok [ (lit "success", JBool true);
                 (lit "key", k);
                 (lit "fileName", JStr objectKey);
                 (lit "fileUrl", u);
                 (lit "bucket", bk);
                 (lit "uploadedAt", up) ]).

(** [await axios.put(...)]: it resolves with [data] on a 2xx status. *)
Definition await_put (c : Call) : M JsVal :=
  fun tr =>
    (match axios_put c with
     | AxiosNoResponse => Throw (AxiosError None)
     | AxiosResp st rdata =>
         if Z.leb 200 st && Z.ltb st 300 then Val rdata
         else Throw (AxiosError (Some (st, rdata)))
     end, tr ++ [c]).

Definition upload_body (req : Request) : M HttpResponse :=
  img ← lift (as_string (lit "replace") (imageBase64 req));
  idea ← lift (as_string (lit "toLowerCase") (prompt req));
  rdata ← await_put
    (PutObject (object_key (sanitizedPrompt idea) (Number_toString now 0))
               (Number_toString now 0 ++ lit ".png")
               (strip_data_uri img));
  lift (upload_answer (object_key (sanitizedPrompt idea) (Number_toString now 0)) rdata).

Definition upload (req : Request) : list Call * HttpResponse :=
  if negb (truthy (imageBase64 req)) then
    ([], json_status 400 [(lit "error", JStr (lit "Image data is required"))])
  else
    match upload_body req [] with
    | (Val r, tr) => (tr, r)
    | (Throw e, tr) =>
        (tr, json_status 500 [ (lit "error", JStr (lit "Upload to InsForge failed"));
                               (lit "details", error_details e) ])
    end.

(** *** What the upstream services answer *)

(** The text model answers the call [c] with a success status and a JSON
    body whose first candidate text is [t] ([JUndefined] when it has none). *)
Definition text_answer (c : Call) (t : JsVal) : Prop :=
  exists b textData,
    fetch c = Resp true b /\ JSON_parse b = Some textData
    /\ candidate_text textData = Val t.

(** The image model answers the call [c] with a success status and the JSON body [imageData]. *)
Definition image_answer (c : Call) (imageData : JsVal) : Prop :=
  exists b, fetch c = Resp true b /\ JSON_parse b = Some imageData.

(** A call is answered with a status that is not a success; [b] is the body. *)
Definition fails_with (c : Call) (b : jsstring) : Prop := fetch c = Resp false b.

(** The style text that the prompts of a request carry. *)
Definition style_of (req : Request) (style : jsstring) : Prop :=
  exists c, selected_concept (selectedOption req) = Val c /\ concept_text c = Val style.

(** Step 1 with the text prompt [tp] gives the full description [d]: the
    candidate text of the model, or the idea when the model gave none. *)
Definition described (req : Request) (tp d : jsstring) : Prop :=
  exists t, text_answer (GenerateContent tp) t
            /\ as_string (lit "match") (js_or t (prompt req)) = Val d.

(** A parsed image body without a prediction: no [predictions] member (or
    a falsy one), or an empty list of them. *)
Definition no_predictions (imageData : JsVal) : Prop :=
  exists p, get_prop imageData (lit "predictions") = Val p
            /\ (truthy p = false \/ p = JArr []).

(** The answer to a request that fails validation: no call, status 400. *)
Definition bad_request (message : string) : list Call * HttpResponse :=
  ([], json_status 400 [(lit "error", JStr (lit message))]).

Definition is_string (v : JsVal) : Prop := exists s, v = JStr s.

(** Three suggestion strings, as the response should carry them. *)
Definition three_suggestion_strings (r : HttpResponse) : Prop :=
  exists a b c, field r (lit "suggestions") = Some (JArr [JStr a; JStr b; JStr c]).

(** The answer of /get-refine-options with the suggestions [l]. *)
Definition suggestions_response (l : list JsVal) : HttpResponse :=
  json_ok [(lit "success", JBool true); (lit "suggestions", JArr l)].



(** [m] occurs in [s] at a position before [n]; [m] occurs in [s]. *)
Definition occurs_before (m : jsstring) (n : nat) (s : jsstring) : bool :=
  existsb (fun i => match strip_prefix m (drop i s) with Some _ => true | None => false end)
          (seq 0 n).

Definition occurs (m s : jsstring) : bool := occurs_before m (S (length s)) s.



(** *** The slug, in the words of the specification *)

(** Runs of code units outside [a-z0-9] collapsed to single hyphens: a code
    unit outside the class gives a hyphen when it is the last of its run. *)
Fixpoint collapse_runs (s : jsstring) : jsstring :=
  match s with
  | [] => []
  | c :: r =>
      if is_slug_char c then c :: collapse_runs r
      else
        match r with
        | [] => [HYPHEN]
        | d :: _ => if is_slug_char d then HYPHEN :: collapse_runs r else collapse_runs r
        end
  end.

(** Leading and trailing hyphens trimmed. *)
Definition trim_hyphens (s : jsstring) : jsstring :=
  rev (drop_while is_hyphen (rev (drop_while is_hyphen s))).

(** The slug of a lower-cased idea. *)
Definition slug_of (lowered : jsstring) : jsstring :=
  take 50 (trim_hyphens (collapse_runs lowered)).

Definition slug_unit (c : N) : Prop := is_slug_char c = true \/ c = HYPHEN.

Definition car_idea : jsstring := lit "A Flying Car! Service".

(** The calls and the outcomes of the three option tasks, in the order of [concepts]. *)
Definition option_calls (p : jsstring) : list Call :=
  map (fun concept => Predict (sketch_prompt p concept)) concepts.

Definition option_outcomes (p : jsstring) : list (Result JsVal) :=
  imap (fun index concept => option_outcome index concept p) concepts.

(** [o] is the entry for the style at [index], made from the answer to that style's call. *)
Definition option_entry (p : jsstring) (index : nat) (o : JsVal) : Prop :=
  exists concept body data b64 img,
    concepts !! index = Some concept
    /\ fetch (Predict (sketch_prompt p concept)) = Resp true body
    /\ JSON_parse body = Some data
    /\ first_prediction_opt data = Val b64
    /\ ToString b64 = Val img
    /\ o = JObj [ (lit "id", int_num (Z.of_nat (index + 1)));
                  (lit "concept", JStr concept);
                  (lit "imageBase64", b64);
                  (lit "image", JStr (data_uri img)) ].

(** In the settlement order [order], the promise [j] is the first to reject, with [e]. *)
Definition first_rejection (outcomes : list (Result JsVal)) (order : list nat)
    (j : nat) (e : Exn) : Prop :=
  exists pre post,
    order = pre ++ j :: post
    /\ outcomes !! j = Some (Throw e)
    /\ forall i, In i pre -> exists v, outcomes !! i = Some (Val v).

(** The state after the promises of [done] have fulfilled with their values. *)
Definition fulfilled_state (vs : list JsVal) (done : list nat) (st : AllState) : Prop :=
  length (values st) = length vs
  /\ remaining st + length done = length vs
  /\ (forall i, In i done -> values st !! i = vs !! i)
  /\ settled st = if Nat.eqb (remaining st) 0 then Some (Val (values st)) else None.

(** *** Shapes of answers *)

(** An answer that reports a failure: status 400 or 500, the member [error]
    and at most the member [details]. *)
Definition failure_answer (r : HttpResponse) : Prop :=
  (status r = 400%Z \/ status r = 500%Z)
  /\ exists msg,
       body r = [(lit "error", JStr msg)]
       \/ exists d, body r = [(lit "error", JStr msg); (lit "details", d)].

(** A success of /generate-final ([extra = []]) or /refine-slide: the image
    as a data URI of the printed [imageBase64], that member itself, and the
    summary. *)
Definition slide_answer (extra : list (jsstring * JsVal)) (r : HttpResponse) : Prop :=
  exists b64 img cd,
    ToString b64 = Val img
    /\ r = json_ok ([ (lit "success", JBool true);
                      (lit "image", JStr (data_uri img));
                      (lit "imageBase64", b64);
                      (lit "description", JStr cd) ] ++ extra).

(** A success of /upload for the object key [objectKey]. *)
Definition upload_success (objectKey : jsstring) (r : HttpResponse) : Prop :=
  exists k u bk up,
    r = json_ok [ (lit "success", JBool true);
                  (lit "key", k);
                  (lit "fileName", JStr objectKey);
                  (lit "fileUrl", u);
                  (lit "bucket", bk);
                  (lit "uploadedAt", up) ].

(** *** Upstream answers that cannot be read *)

(** The call [c] has no readable answer: the request is rejected, the body
    of a success status is not JSON, or it is the JSON text [null], of which
    the handler reads [member]. [e] is the error the engine raises. *)
Definition unreadable (c : Call) (member : jsstring) (e : EngineError) : Prop :=
  (fetch c = NetFail /\ e = FetchFailed)
  \/ (exists b, fetch c = Resp true b /\ JSON_parse b = None /\ e = SyntaxError_json)
  \/ (exists b, fetch c = Resp true b /\ JSON_parse b = Some JNull
                /\ e = TypeError_nullish_property member).

(** The entry of /generate-options for an answer without image bytes. *)
Definition blank_option (index : nat) (concept : jsstring) : JsVal :=
  JObj [ (lit "id", int_num (Z.of_nat (index + 1)));
         (lit "concept", JStr concept);
         (lit "imageBase64", JUndefined);
         (lit "image", JStr (data_uri (lit "undefined"))) ].

(** The success body of /generate-final ([extra = []]) and /refine-slide. *)
Definition slide_body (b64 : JsVal) (img cd : jsstring) (extra : list (jsstring * JsVal))
  : HttpResponse :=
  json_ok ([ (lit "success", JBool true);
             (lit "image", JStr (data_uri img));
             (lit "imageBase64", b64);
             (lit "description", JStr cd) ] ++ extra).

(** The summary of the full description [d] for the idea and the fallback text [fb]. *)
Definition summary_of (d idea : jsstring) (fb : jsstring -> jsstring) : jsstring :=
  match match_concept d with
  | Some block => remove_bold (trim block)
  | None => fb idea
  end.

(** *** Shape of the slug and of the upload answer *)

(** No two hyphens follow each other in [s]. *)
Fixpoint no_hyphen_pair (s : jsstring) : bool :=
  match s with
  | [] => true
  | c :: r =>
      match r with
      | d :: _ => negb (is_hyphen c && is_hyphen d)
      | [] => true
      end && no_hyphen_pair r
  end.


(** The success body of /upload whose fields are read from the members [ms]. *)
Definition upload_fields (objectKey : jsstring) (ms : list (jsstring * JsVal)) : HttpResponse :=
  json_ok [ (lit "success", JBool true);
            (lit "key", or_undefined (last_member (lit "key") ms));
            (lit "fileName", JStr objectKey);
            (lit "fileUrl", or_undefined (last_member (lit "url") ms));
            (lit "bucket", or_undefined (last_member (lit "bucket") ms));
            (lit "uploadedAt", or_undefined (last_member (lit "uploadedAt") ms)) ].

(** ** Lemmas on strings and on JSON.parse *)

Lemma drop_while_length (p : N -> bool) (s : jsstring) :
length (drop_while p s) <= length s.
Proof.
induction s as [|c r IH]; simpl; [lia|].
destruct (p c); simpl; lia.
Qed.

Lemma str_eqb_eq (s t : jsstring) : str_eqb s t = true <-> s = t.
Proof.
  revert t; induction s as [|c s IH]; intros [|d t]; cbn [str_eqb]; try (split; congruence).
  rewrite andb_true_iff, N.eqb_eq, IH. split; [intros [-> ->]; reflexivity|].
  intros H; inversion H; auto.
Qed.


Lemma skip_ws_length (s : jsstring) : length (skip_ws s) <= length s.
Proof. apply drop_while_length. Qed.

Lemma strip_prefix_length (p s rest : jsstring) :
strip_prefix p s = Some rest -> length s = length p + length rest.
Proof.
revert s; induction p as [|c p IH]; intros s H; simpl in *.
- inversion H; reflexivity.
- destruct s as [|d s']; [discriminate|].
  destruct (N.eqb c d); [|discriminate].
  simpl; rewrite (IH _ H); reflexivity.
Qed.


Lemma strip_prefix_of_app (p rest : jsstring) : strip_prefix p (p ++ rest) = Some rest.
Proof.
induction p as [|c p IH]; simpl; [reflexivity|].
rewrite N.eqb_refl; exact IH.
Qed.

Lemma lex_string_length_bounded (n : nat) :
forall s str rest, length s <= n -> lex_string s = Some (str, rest) -> length rest < length s.
Proof.
induction n as [|n IH]; intros s str rest Hn H.
- destruct s; [discriminate | simpl in Hn; lia].
- destruct s as [|c r]; [discriminate|].
  simpl in Hn. cbn [lex_string] in H.
  destruct (N.eqb c DQUOTE).
  { inversion H; subst; simpl; lia. }
  destruct (N.eqb c (ch "\")).
  { destruct r as [|x r1]; [discriminate|].
    destruct (N.eqb x (ch "u")).
    - destruct r1 as [|h1 [|h2 [|h3 [|h4 r2]]]]; try discriminate.
      destruct (hex4 h1 h2 h3 h4); [|discriminate].
      destruct (lex_string r2) as [[s2 rest2]|] eqn:E; [|discriminate].
      simpl in H; inversion H; subst.
      apply IH in E; simpl in *; lia.
    - destruct (escape_char x); [|discriminate].
      destruct (lex_string r1) as [[s2 rest2]|] eqn:E; [|discriminate].
      simpl in H; inversion H; subst.
      apply IH in E; simpl in *; lia. }
  destruct (N.ltb c 32); [discriminate|].
  destruct (lex_string r) as [[s2 rest2]|] eqn:E; [|discriminate].
  simpl in H; inversion H; subst.
  apply IH in E; simpl in *; lia.
Qed.

Lemma lex_string_length (s str rest : jsstring) :
lex_string s = Some (str, rest) -> length rest < length s.
Proof. apply (lex_string_length_bounded (length s)); lia. Qed.

Lemma lex_int_length (s ip rest : jsstring) :
lex_int s = Some (ip, rest) -> length rest < length s.
Proof.
unfold lex_int. destruct s as [|d r]; [discriminate|].
destruct (negb (is_digit d)); [discriminate|].
destruct (N.eqb d 48); intros H; inversion H; subst; simpl.
- lia.
- pose proof (drop_while_length is_digit r); lia.
Qed.

Lemma lex_frac_length (s fp rest : jsstring) :
lex_frac s = Some (fp, rest) -> length rest <= length s.
Proof.
unfold lex_frac. destruct s as [|c r]; [intros H; inversion H; subst; simpl; lia|].
destruct (N.eqb c (ch ".")).
- destruct (take_while is_digit r); [discriminate|].
  intros H; inversion H; subst. pose proof (drop_while_length is_digit r); simpl; lia.
- intros H; inversion H; subst; lia.
Qed.

Lemma lex_exp_sign_length (s : jsstring) : length (snd (lex_exp_sign s)) <= length s.
Proof.
unfold lex_exp_sign. destruct s as [|g r]; [simpl; lia|].
destruct (N.eqb g (ch "-")); [simpl; lia|].
destruct (N.eqb g (ch "+")); simpl; lia.
Qed.

Lemma lex_exp_length (s rest : jsstring) (ex : Z) :
lex_exp s = Some (ex, rest) -> length rest <= length s.
Proof.
unfold lex_exp. destruct s as [|c r]; [intros H; inversion H; subst; simpl; lia|].
destruct (N.eqb c (ch "e") || N.eqb c (ch "E")).
- destruct (take_while is_digit (snd (lex_exp_sign r))); [discriminate|].
  intros H; inversion H; subst.
  pose proof (drop_while_length is_digit (snd (lex_exp_sign r))).
  pose proof (lex_exp_sign_length r). simpl; lia.
- intros H; inversion H; subst; lia.
Qed.

Lemma lex_number_length (s rest : jsstring) (m e : Z) :
lex_number s = Some (m, e, rest) -> length rest < length s.
Proof.
unfold lex_number.
set (neg := match s with c :: _ => N.eqb c (ch "-") | [] => false end).
destruct (lex_int (if neg then tail s else s)) as [[ip s2]|] eqn:E1; [|discriminate].
destruct (lex_frac s2) as [[fp s3]|] eqn:E2; [|discriminate].
destruct (lex_exp s3) as [[ex s4]|] eqn:E3; [|discriminate].
intros H; inversion H; subst.
apply lex_int_length in E1. apply lex_frac_length in E2. apply lex_exp_length in E3.
assert (H0 : length (if neg then tail s else s) <= length s).
{ destruct neg; [destruct s; simpl; lia | lia]. }
eapply Nat.lt_le_trans; [|exact H0].
eapply Nat.le_lt_trans; [|exact E1]. lia.
Qed.

Lemma parse_literal_length (s rest : jsstring) (v : JsVal) :
parse_literal s = POk v rest -> length rest < length s.
Proof.
unfold parse_literal.
destruct (strip_prefix (lit "true") s) eqn:E1.
{ intros H; inversion H; subst. apply strip_prefix_length in E1. simpl in E1. lia. }
destruct (strip_prefix (lit "false") s) eqn:E2.
{ intros H; inversion H; subst. apply strip_prefix_length in E2. simpl in E2. lia. }
destruct (strip_prefix (lit "null") s) eqn:E3; [|discriminate].
intros H; inversion H; subst. apply strip_prefix_length in E3. simpl in E3. lia.
Qed.

Lemma parse_literal_fuel (s : jsstring) : parse_literal s <> PFuel.
Proof.
unfold parse_literal.
repeat match goal with |- context [match ?x with _ => _ end] => destruct x end; discriminate.
Qed.

Ltac length_facts :=
repeat match goal with
| H : skip_ws ?x = _ |- _ =>
    let L := fresh "L" in
    pose proof (skip_ws_length x) as L; rewrite H in L; simpl in L; clear H
| H : lex_string _ = Some _ |- _ => apply lex_string_length in H
| H : lex_number _ = Some _ |- _ => apply lex_number_length in H; simpl in H
| H : parse_literal _ = POk _ _ |- _ => apply parse_literal_length in H; simpl in H
end.

Lemma parse_lengths (fuel : nat) :
(forall s v rest, parse_value fuel s = POk v rest -> length rest < length s)
/\ (forall s l rest, parse_elements fuel s = POk l rest -> length rest < length s)
/\ (forall s ms rest, parse_members fuel s = POk ms rest -> length rest < length s).
Proof.
induction fuel as [|f (IHV & IHE & IHM)].
{ repeat split; intros; discriminate. }
repeat split; intros s x rest H; cbn [parse_value parse_elements parse_members] in H;
  repeat (case_match; try discriminate); simplify_eq;
  repeat match goal with
  | H : parse_value f _ = POk _ _ |- _ => apply IHV in H
  | H : parse_elements f _ = POk _ _ |- _ => apply IHE in H
  | H : parse_members f _ = POk _ _ |- _ => apply IHM in H
  end;
  length_facts; lia.
Qed.

Lemma parse_value_length (fuel : nat) (s rest : jsstring) (v : JsVal) :
parse_value fuel s = POk v rest -> length rest < length s.
Proof. apply parse_lengths. Qed.

(** The recursion never runs out of fuel when it starts with enough of it. *)
Lemma parse_fuel (fuel : nat) :
(forall s, 2 * length s < fuel -> parse_value fuel s <> PFuel)
/\ (forall s, 2 * length s + 1 < fuel -> parse_elements fuel s <> PFuel)
/\ (forall s, 2 * length s + 1 < fuel -> parse_members fuel s <> PFuel).
Proof.
induction fuel as [|f (IHV & IHE & IHM)].
{ repeat split; intros; lia. }
pose proof (parse_lengths f) as (LV & LE & LM).
repeat split; intros s Hs H; cbn [parse_value parse_elements parse_members] in H;
  repeat (case_match; try discriminate); simplify_eq;
  try (eapply parse_literal_fuel; eassumption);
  repeat match goal with
  | H : parse_value f _ = POk _ _ |- _ => apply LV in H
  | H : parse_elements f _ = POk _ _ |- _ => apply LE in H
  | H : parse_members f _ = POk _ _ |- _ => apply LM in H
  end;
  match goal with
  | H : parse_value f _ = PFuel |- _ => apply IHV in H; [exact H|]
  | H : parse_elements f _ = PFuel |- _ => apply IHE in H; [exact H|]
  | H : parse_members f _ = PFuel |- _ => apply IHM in H; [exact H|]
  end;
  length_facts; lia.
Qed.

Lemma json_fuel_enough (s : jsstring) : parse_value (json_fuel s) s <> PFuel.
Proof. apply parse_fuel. unfold json_fuel. lia. Qed.

(** A text that parses and starts with an opening bracket is an array. *)
Lemma JSON_parse_bracket (r : jsstring) (v : JsVal) :
JSON_parse (ch "[" :: r) = Some v -> exists l, v = JArr l.
Proof.
unfold JSON_parse, json_fuel. cbn [length Nat.mul Nat.add parse_value].
change (skip_ws (ch "[" :: r)) with (ch "[" :: r).
change (N.eqb (ch "[") (ch "[")) with true. cbv iota.
repeat (case_match; try discriminate); intros; simplify_eq; eauto.
Qed.

(** *** The bracket span *)

Lemma upto_last_rbracket_none (s : jsstring) :
~ In (ch "]") s -> upto_last_rbracket s = None.
Proof.
induction s as [|c r IH]; intros Hn; cbn [upto_last_rbracket]; [reflexivity|].
rewrite IH by (intros Hin; apply Hn; right; exact Hin).
destruct (N.eqb_spec c (ch "]")); [|reflexivity].
exfalso; apply Hn; left; assumption.
Qed.

Lemma upto_last_rbracket_some (mid post : jsstring) :
~ In (ch "]") post ->
upto_last_rbracket (mid ++ ch "]" :: post) = Some (mid ++ [ch "]"]).
Proof.
intros Hn. induction mid as [|c mid IH].
- cbn [app upto_last_rbracket]. rewrite (upto_last_rbracket_none post Hn).
  rewrite N.eqb_refl. reflexivity.
- cbn [app upto_last_rbracket]. rewrite IH. reflexivity.
Qed.

Lemma upto_last_rbracket_inv (s m : jsstring) :
upto_last_rbracket s = Some m ->
exists mid post, m = mid ++ [ch "]"] /\ s = mid ++ ch "]" :: post /\ ~ In (ch "]") post.
Proof.
revert m; induction s as [|c r IH]; intros m H; [discriminate|].
cbn [upto_last_rbracket] in H.
destruct (upto_last_rbracket r) as [m'|] eqn:E.
- inversion H; subst. destruct (IH _ eq_refl) as (mid & post & -> & -> & Hn).
  exists (c :: mid), post. repeat split; auto.
- destruct (N.eqb_spec c (ch "]")); [|discriminate].
  inversion H; subst. exists [], r. repeat split.
  intros Hin. revert E.
  clear -Hin. induction r as [|d r IH]; [destruct Hin|].
  cbn [upto_last_rbracket]. destruct (upto_last_rbracket r) eqn:E; [discriminate|].
  destruct Hin as [->|Hin]; [rewrite N.eqb_refl; discriminate|].
  exfalso. exact (IH Hin eq_refl).
Qed.

(** The match is the span from the first opening bracket to the last closing one. *)
Lemma match_bracket_span_some (pre mid post : jsstring) :
~ In (ch "[") pre -> ~ In (ch "]") post ->
match_bracket_span (pre ++ ch "[" :: mid ++ ch "]" :: post) = Some (ch "[" :: mid ++ [ch "]"]).
Proof.
intros Hpre Hpost. induction pre as [|c pre IH].
- cbn [app match_bracket_span]. rewrite N.eqb_refl.
  rewrite (upto_last_rbracket_some mid post Hpost). reflexivity.
- cbn [app match_bracket_span].
  destruct (N.eqb_spec c (ch "[")) as [->|_].
  { exfalso; apply Hpre; left; reflexivity. }
  apply IH. intros Hin; apply Hpre; right; exact Hin.
Qed.

Lemma match_bracket_span_none (text : jsstring) :
(forall a b c, text <> a ++ ch "[" :: b ++ ch "]" :: c) ->
match_bracket_span text = None.
Proof.
induction text as [|x r IH]; intros Hn; [reflexivity|].
cbn [match_bracket_span].
assert (Hr : match_bracket_span r = None).
{ apply IH. intros a b c ->. apply (Hn (x :: a) b c). reflexivity. }
destruct (N.eqb_spec x (ch "[")) as [->|_]; [|exact Hr].
destruct (upto_last_rbracket r) as [m|] eqn:E; [|exact Hr].
destruct (upto_last_rbracket_inv _ _ E) as (mid & post & _ & -> & _).
exfalso. apply (Hn [] mid post). reflexivity.
Qed.

Lemma match_bracket_span_head (text span : jsstring) :
match_bracket_span text = Some span -> exists r, span = ch "[" :: r.
Proof.
induction text as [|x r IH]; [discriminate|].
cbn [match_bracket_span].
destruct (N.eqb_spec x (ch "[")) as [->|_]; [|exact IH].
destruct (upto_last_rbracket r) as [m|]; [|exact IH].
intros H; inversion H; eauto.
Qed.

(** *** The concept block *)




(** *** Bold markers *)





(** *** The padding loop *)

Lemma pad_loop_spec (l : list JsVal) :
pad_loop 3 l = l ++ replicate (3 - length l) filler_suggestion.
Proof.
destruct l as [|a [|b [|c r]]]; try reflexivity.
cbn [pad_loop length Nat.ltb Nat.leb]. 
replace (3 - S (S (S (length r)))) with 0 by (simpl; lia).
simpl. rewrite app_nil_r. reflexivity.
Qed.

(** The loop condition is false after three rounds. *)
Lemma pad_loop_exits (l : list JsVal) : Nat.ltb (length (pad_loop 3 l)) 3 = false.
Proof.
destruct l as [|a [|b [|c r]]]; reflexivity.
Qed.

Lemma exactly_three_length (l : list JsVal) : length (take 3 (pad_loop 3 l)) = 3.
Proof.
destruct l as [|a [|b [|c r]]]; reflexivity.
Qed.

(** ** The handlers *)

Ltac run_M :=
  unfold describe_and_draw, describe, draw, run_handler, mbind, M_bind, mret, M_ret, throw,
    lift, await_fetch, await_put, response_json in *.

Lemma describe_ok req tp tf fb t d cd tr :
  text_answer (GenerateContent tp) t ->
  as_string (lit "match") (js_or t (prompt req)) = Val d ->
  concept_display d fb = Val cd ->
  describe req tp tf fb tr = (Val (d, cd), tr ++ [GenerateContent tp]).
Proof.
  intros (b & textData & Hf & Hp & Ht) Hd Hcd. run_M.
  rewrite Hf. cbn [negb]. rewrite Hp, Ht, Hd, Hcd. reflexivity.
Qed.

Lemma describe_inv req tp tf fb d cd tr tr' :
  describe req tp tf fb tr = (Val (d, cd), tr') ->
  exists t, text_answer (GenerateContent tp) t
            /\ as_string (lit "match") (js_or t (prompt req)) = Val d
            /\ concept_display d fb = Val cd
            /\ tr' = tr ++ [GenerateContent tp].
Proof.
  run_M. unfold text_answer.
  destruct (fetch (GenerateContent tp)) as [[|] b|] eqn:Hf; cbn [negb]; try discriminate.
  destruct (JSON_parse b) as [textData|] eqn:Hp; [|discriminate].
  destruct (candidate_text textData) as [t|] eqn:Ht; [|discriminate].
  destruct (as_string (lit "match") (js_or t (prompt req))) as [d'|] eqn:Hd; [|discriminate].
  destruct (concept_display d' fb) as [cd'|] eqn:Hcd; [|discriminate].
  intros H; inversion H; subst. exists t. eauto 10.
Qed.

Lemma describe_trace req tp tf fb tr :
  snd (describe req tp tf fb tr) = tr ++ [GenerateContent tp].
Proof.
  run_M. repeat (case_match; simplify_eq; try reflexivity).
Qed.


Lemma draw_trace p cd extra tr : snd (draw p cd extra tr) = tr ++ [Predict p].
Proof.
  run_M. repeat (case_match; simplify_eq; try reflexivity).
Qed.

(** The image step answers, when it does not throw, with 200 or 500. *)
Lemma draw_status p cd extra tr r tr' :
  draw p cd extra tr = (Val r, tr') -> status r = 200%Z \/ status r = 500%Z.
Proof.
  run_M. repeat (case_match; simplify_eq; try discriminate);
    (let E := fresh "E" in intros E; inversion E; subst); cbn; auto.
Qed.



Lemma draw_no_predictions p cd extra imageData tr :
  image_answer (Predict p) imageData ->
  has_predictions imageData = Val false ->
  draw p cd extra tr
  = (Val (json_status 500 [(lit "error", JStr (lit "No image generated"))]), tr ++ [Predict p]).
Proof.
  intros (b & Hf & Hp) Hn. run_M. rewrite Hf. cbn [negb]. rewrite Hp, Hn. reflexivity.
Qed.

Lemma draw_ok p cd extra imageData preds p0 b64 img tr :
  image_answer (Predict p) imageData ->
  has_predictions imageData = Val true ->
  get_prop imageData (lit "predictions") = Val preds ->
  get_index0 preds = Val p0 ->
  get_prop p0 (lit "bytesBase64Encoded") = Val b64 ->
  ToString b64 = Val img ->
  draw p cd extra tr
  = (Val (json_ok ([ (lit "success", JBool true);
                     (lit "image", JStr (data_uri img));
                     (lit "imageBase64", b64);
                     (lit "description", JStr cd) ] ++ extra)), tr ++ [Predict p]).
Proof.
  intros (b & Hf & Hp) H1 H2 H3 H4 H5. run_M. rewrite Hf. cbn [negb].
  rewrite Hp, H1, H2, H3, H4, H5. reflexivity.
Qed.

Lemma no_predictions_false imageData :
  no_predictions imageData -> has_predictions imageData = Val false.
Proof.
  intros (p & Hp & [Hf | ->]); unfold has_predictions, mbind, Result_bind; rewrite Hp.
  - rewrite Hf. reflexivity.
  - reflexivity.
Qed.

Lemma concept_display_string d idea fb :
  exists cd, concept_display d (p ← as_string (lit "substring") (JStr idea); Val (fb p)) = Val cd.
Proof.
  unfold concept_display. destruct (match_concept d); cbn; eauto.
Qed.

(** The shared steps, when validation has passed and step 1 succeeds. *)
Lemma describe_and_draw_step req tp tf fb ip extra d cd :
  described req tp d ->
  concept_display d fb = Val cd ->
  describe_and_draw req tp tf fb ip extra [] 
  = draw (ip d) cd extra [GenerateContent tp].
Proof.
  intros (t & Ht & Hd) Hcd. unfold describe_and_draw, mbind, M_bind.
  rewrite (describe_ok req tp tf fb t d cd [] Ht Hd Hcd). reflexivity.
Qed.

(** C10. In /generate-final and /refine-slide, when the image call
    succeeds and its JSON body has no prediction, the answer is status 500
    with the single member [error: 'No image generated']: there is no
    [image], [imageBase64] or [description]. *)
Theorem no_image_generated_500 :
  (forall req idea style d imageData,
      prompt req = JStr idea -> idea <> [] -> selectedOption req <> JUndefined ->
      style_of req style ->
      described req (final_text_prompt idea style) d ->
      image_answer (Predict (final_image_prompt d)) imageData ->
      no_predictions imageData ->
      generate_final req
      = ([GenerateContent (final_text_prompt idea style); Predict (final_image_prompt d)],
         json_status 500 [(lit "error", JStr (lit "No image generated"))]))
  /\ (forall req idea style ins d imageData,
      prompt req = JStr idea -> idea <> [] -> selectedOption req <> JUndefined ->
      refinementInstruction req = JStr ins -> ins <> [] ->
      style_of req style ->
      described req (refine_text_prompt idea style ins) d ->
      image_answer (Predict (refine_image_prompt d)) imageData ->
      no_predictions imageData ->
      refine_slide req
      = ([GenerateContent (refine_text_prompt idea style ins); Predict (refine_image_prompt d)],
         json_status 500 [(lit "error", JStr (lit "No image generated"))])).
Proof.
  split.
  - intros req idea style d imageData Hp Hne Hsel (c & Hc & Hs) Hd Hi Hn.
    unfold generate_final. rewrite Hp.
    destruct idea as [|x idea]; [contradiction|]. cbn [truthy negb orb].
    destruct (selectedOption req) eqn:Esel; try contradiction; cbn [is_undefined];
      unfold run_handler, mbind, M_bind, lift; rewrite Hc; cbn [ToString]; rewrite Hs;
      destruct (concept_display_string d (x :: idea) (fun p => final_fallback p style)) as (cd & Hcd);
      rewrite (describe_and_draw_step _ _ _ _ _ _ d cd Hd Hcd);
      rewrite (draw_no_predictions _ _ _ imageData _ Hi (no_predictions_false _ Hn));
      reflexivity.
  - intros req idea style ins d imageData Hp Hne Hsel Hins Hine (c & Hc & Hs) Hd Hi Hn.
    unfold refine_slide. rewrite Hp, Hins.
    destruct idea as [|x idea]; [contradiction|].
    destruct ins as [|y ins]; [contradiction|]. cbn [truthy negb orb].
    destruct (selectedOption req) eqn:Esel; try contradiction; cbn [is_undefined orb];
      unfold run_handler, mbind, M_bind, lift; rewrite Hc; cbn [ToString as_string]; rewrite Hs;
      destruct (concept_display_string d (x :: idea) (fun p => refine_fallback p style)) as (cd & Hcd);
      rewrite (describe_and_draw_step _ _ _ _ _ _ d cd Hd Hcd);
      rewrite (draw_no_predictions _ _ _ imageData _ Hi (no_predictions_false _ Hn));
      reflexivity.
Qed.

(** *** Validation *)

(** C3. A request that lacks a field the handler checks is answered with
    status 400 before any upstream call: [prompt] for /generate-options;
    [prompt] or [selectedOption] for /generate-final and /get-refine-options;
    these or [refinementInstruction] for /refine-slide; [imageBase64] for
    /upload. /upload does not check [prompt]: a request with an image and
    without [prompt] makes no storage call either, but is answered with
    status 500 and the error of the upload failure, whose details are the
    message of the TypeError raised by [prompt.toLowerCase()]. *)
Theorem missing_field_responses :
  (forall order req, prompt req = JUndefined ->
     generate_options order req = Some (bad_request "Prompt is required"))
  /\ (forall req, prompt req = JUndefined \/ selectedOption req = JUndefined ->
        generate_final req = bad_request "Prompt and selected option are required")
  /\ (forall req, prompt req = JUndefined \/ selectedOption req = JUndefined ->
        get_refine_options req = bad_request "Prompt and selected option are required")
  /\ (forall req,
        prompt req = JUndefined \/ selectedOption req = JUndefined
        \/ refinementInstruction req = JUndefined ->
        refine_slide req
        = bad_request "Prompt, selected option, and refinement instruction are required")
  /\ (forall req, imageBase64 req = JUndefined ->
        upload req = bad_request "Image data is required")
  /\ (forall req img, imageBase64 req = JStr img -> img <> [] -> prompt req = JUndefined ->
        upload req
        = ([], json_status 500
                 [ (lit "error", JStr (lit "Upload to InsForge failed"));
                   (lit "details",
                    JStr (engine_message (TypeError_nullish_property (lit "toLowerCase")))) ])).
Proof.
  repeat split.
  - intros order req H. unfold generate_options. rewrite H. reflexivity.
  - intros req [H|H]; unfold generate_final; rewrite H; [reflexivity|].
    cbn [is_undefined]. rewrite orb_true_r. reflexivity.
  - intros req [H|H]; unfold get_refine_options; rewrite H; [reflexivity|].
    cbn [is_undefined]. rewrite orb_true_r. reflexivity.
  - intros req [H|[H|H]]; unfold refine_slide; rewrite H; [reflexivity| |].
    + cbn [is_undefined]. rewrite orb_true_r. reflexivity.
    + cbn [truthy negb]. rewrite orb_true_r. reflexivity.
  - intros req H. unfold upload. rewrite H. reflexivity.
  - intros req img Hi Hne Hp. unfold upload, upload_body. rewrite Hi, Hp.
    destruct img as [|c img]; [contradiction|]. reflexivity.
Qed.

(** *** POST /get-refine-options *)

Lemma parse_suggestions_array (t : JsVal) : exists parsed, parse_suggestions t = JArr parsed.
Proof.
  unfold parse_suggestions.
  destruct (as_string (lit "match") t) as [text|]; [|eauto].
  destruct (match_bracket_span text) as [span|] eqn:E; [|eauto].
  destruct (match_bracket_span_head _ _ E) as (r & ->).
  destruct (JSON_parse (ch "[" :: r)) as [v|] eqn:P; [|eauto].
  destruct (JSON_parse_bracket _ _ P) as (l & ->). eauto.
Qed.

Lemma take3_pad (l : list JsVal) :
  take 3 (pad_loop 3 l) = take 3 (l ++ replicate 3 filler_suggestion).
Proof.
  destruct l as [|a [|b [|c r]]]; reflexivity.
Qed.

Lemma take3_length (l : list JsVal) :
  length (take 3 (l ++ replicate 3 filler_suggestion)) = 3.
Proof.
  destruct l as [|a [|b [|c r]]]; reflexivity.
Qed.

Lemma take3_strings (l : list JsVal) :
  Forall is_string (take 3 l) ->
  Forall is_string (take 3 (l ++ replicate 3 filler_suggestion)).
Proof.
  assert (Hf : is_string filler_suggestion) by (eexists; reflexivity).
  destruct l as [|a [|b [|c r]]]; cbn; intros H;
    repeat match goal with
           | H : Forall _ (_ :: _) |- _ => inversion_clear H
           end;
    repeat constructor; assumption.
Qed.

(** The handler, once validation has passed and the text call is answered. *)
Lemma get_refine_options_run req idea t parsed :
  truthy (prompt req) = true -> selectedOption req <> JUndefined ->
  ToString (prompt req) = Val idea ->
  text_answer (GenerateContent (suggestions_prompt idea)) t ->
  parse_suggestions (js_or t (JStr [])) = JArr parsed ->
  get_refine_options req
  = ([GenerateContent (suggestions_prompt idea)],
     suggestions_response (take 3 (parsed ++ replicate 3 filler_suggestion))).
Proof.
  intros Hp Hs Hi (b & textData & Hf & Hj & Ht) Hparsed.
  unfold get_refine_options. rewrite Hp.
  destruct (selectedOption req); try contradiction; cbn [negb orb is_undefined];
    run_M; rewrite Hi, Hf; cbn [negb]; rewrite Hj, Ht, Hparsed;
    cbn [exactly_three]; rewrite take3_pad; reflexivity.
Qed.

(** C1 (amended). For every candidate text of the text model, the answer of
    /get-refine-options carries exactly three suggestions: the entries parsed
    from the text (or the fallback, or none), padded with the filler string
    and cut after the third. They are strings whenever the first three parsed
    entries are; the handler does not check their type. *)
Theorem three_suggestions req idea t :
  truthy (prompt req) = true -> selectedOption req <> JUndefined ->
  ToString (prompt req) = Val idea ->
  text_answer (GenerateContent (suggestions_prompt idea)) t ->
  exists parsed l,
    parse_suggestions (js_or t (JStr [])) = JArr parsed
    /\ l = take 3 (parsed ++ replicate 3 filler_suggestion)
    /\ get_refine_options req
       = ([GenerateContent (suggestions_prompt idea)], suggestions_response l)
    /\ length l = 3
    /\ (Forall is_string (take 3 parsed) -> Forall is_string l).
Proof.
  intros Hp Hs Hi Ht.
  destruct (parse_suggestions_array (js_or t (JStr []))) as (parsed & Hparsed).
  exists parsed, (take 3 (parsed ++ replicate 3 filler_suggestion)).
  split; [exact Hparsed|]. split; [reflexivity|].
  split; [exact (get_refine_options_run req idea t parsed Hp Hs Hi Ht Hparsed)|].
  split; [apply take3_length | apply take3_strings].
Qed.

(** C2 (amended). The candidate text [text] is searched for the span from
    its first opening bracket to its last closing bracket. When there is
    such a span, it is parsed as JSON: an array gives its first three
    entries, padded with the filler; a span that does not parse gives the
    three fallback suggestions. When there is no such span, nothing is
    parsed and the answer is three times the filler. In each case the
    answer is a success and one upstream call is made. *)
Theorem suggestions_from_text req idea text :
  truthy (prompt req) = true -> selectedOption req <> JUndefined ->
  ToString (prompt req) = Val idea ->
  text_answer (GenerateContent (suggestions_prompt idea)) (JStr text) ->
  (forall pre mid post,
      text = pre ++ ch "[" :: mid ++ ch "]" :: post ->
      ~ In (ch "[") pre -> ~ In (ch "]") post ->
      match JSON_parse (ch "[" :: mid ++ [ch "]"]) with
      | Some v =>
          exists parsed,
            v = JArr parsed
            /\ get_refine_options req
               = ([GenerateContent (suggestions_prompt idea)],
                  suggestions_response (take 3 (parsed ++ replicate 3 filler_suggestion)))
      | None =>
          get_refine_options req
          = ([GenerateContent (suggestions_prompt idea)],
             suggestions_response fallback_suggestions)
      end)
  /\ ((forall a b c, text <> a ++ ch "[" :: b ++ ch "]" :: c) ->
      get_refine_options req
      = ([GenerateContent (suggestions_prompt idea)],
         suggestions_response [filler_suggestion; filler_suggestion; filler_suggestion])).
Proof.
  intros Hp Hs Hi Ht.
  assert (Hor : js_or (JStr text) (JStr []) = JStr text).
  { destruct text; reflexivity. }
  split.
  - intros pre mid post -> Hpre Hpost.
    pose proof (match_bracket_span_some pre mid post Hpre Hpost) as Hspan.
    destruct (JSON_parse (ch "[" :: mid ++ [ch "]"])) as [v|] eqn:P.
    + destruct (JSON_parse_bracket _ _ P) as (parsed & ->).
      exists parsed. split; [reflexivity|].
      apply (get_refine_options_run req idea _ parsed Hp Hs Hi Ht).
      rewrite Hor. unfold parse_suggestions. cbn [as_string]. rewrite Hspan, P. reflexivity.
    + apply (get_refine_options_run req idea _ fallback_suggestions Hp Hs Hi Ht).
      rewrite Hor. unfold parse_suggestions. cbn [as_string]. rewrite Hspan, P. reflexivity.
  - intros Hnone.
    apply (get_refine_options_run req idea _ [] Hp Hs Hi Ht).
    rewrite Hor. unfold parse_suggestions. cbn [as_string].
    rewrite (match_bracket_span_none text Hnone). reflexivity.
Qed.

(** *** The two steps under [run_handler] *)

(** A handler that reaches the text step makes the text call first, then at
    most the image call, and answers with 200 or 500. *)
Lemma describe_and_draw_run req tp tf fb ip extra :
  exists rest r,
    run_handler (describe_and_draw req tp tf fb ip extra) = (GenerateContent tp :: rest, r)
    /\ (rest = [] \/ exists d, rest = [Predict (ip d)])
    /\ (status r = 200%Z \/ status r = 500%Z).
Proof.
  unfold run_handler, describe_and_draw, mbind, M_bind.
  pose proof (describe_trace req tp tf fb []) as Htr.
  destruct (describe req tp tf fb []) as [[[d cd]|e] tr]; cbn [snd app] in Htr; subst tr.
  - pose proof (draw_trace (ip d) cd extra [GenerateContent tp]) as Htr.
    destruct (draw (ip d) cd extra [GenerateContent tp]) as [[r|e] tr] eqn:E;
      cbn [snd app] in Htr; subst tr.
    + exists [Predict (ip d)], r. repeat split; eauto. exact (draw_status _ _ _ _ _ _ E).
    + eexists [Predict (ip d)], _. repeat split; eauto.
  - eexists [], _. repeat split; eauto.
Qed.




(** *** POST /refine-slide *)

Lemma run_bind_lift {A : Type} (r : Result A) (k : A -> M HttpResponse) :
  run_handler (x ← lift r; k x)
  = match r with
    | Val a => run_handler (k a)
    | Throw e => ([], json_status 500 [(lit "error", JStr (message_of e))])
    end.
Proof. destruct r; reflexivity. Qed.





(** *** The concept summary *)

Lemma occurs_before_true (m s a b : jsstring) (n : nat) :
  s = a ++ m ++ b -> length a < n -> occurs_before m n s = true.
Proof.
  intros -> Hn. unfold occurs_before. apply existsb_exists.
  exists (length a). split; [apply in_seq; lia|].
  rewrite drop_app_length. rewrite strip_prefix_of_app. reflexivity.
Qed.



Lemma occurs_true (m s a b : jsstring) : s = a ++ m ++ b -> occurs m s = true.
Proof.
  intros E. apply (occurs_before_true m s a b); [exact E|].
  rewrite E, length_app. lia.
Qed.









(** *** POST /upload *)

Lemma replace_non_alnum_collapse (s : jsstring) :
  replace_non_alnum false s = collapse_runs s
  /\ (forall c, is_slug_char c = false ->
                HYPHEN :: replace_non_alnum true s = collapse_runs (c :: s)).
Proof.
  induction s as [|x r [IH1 IH2]].
  - split; [reflexivity|]. intros c Hc. cbn [collapse_runs replace_non_alnum]. rewrite Hc. reflexivity.
  - split.
    + cbn [replace_non_alnum]. destruct (is_slug_char x) eqn:Hx.
      * cbn [collapse_runs]. rewrite Hx, IH1. reflexivity.
      * exact (IH2 x Hx).
    + intros c Hc. cbn [replace_non_alnum].
      change (collapse_runs (c :: x :: r))
        with (if is_slug_char c then c :: collapse_runs (x :: r)
              else if is_slug_char x then HYPHEN :: collapse_runs (x :: r)
                   else collapse_runs (x :: r)).
      rewrite Hc. destruct (is_slug_char x) eqn:Hx.
      * cbn [collapse_runs]. rewrite Hx, IH1. reflexivity.
      * exact (IH2 x Hx).
Qed.

Lemma drop_while_snoc (p : N -> bool) (l : jsstring) (c : N) :
  drop_while p (l ++ [c])
  = if forallb p l then (if p c then [] else [c]) else drop_while p l ++ [c].
Proof.
  induction l as [|x l IH]; [reflexivity|].
  cbn [app drop_while forallb]. destruct (p x); [exact IH | reflexivity].
Qed.

Lemma forallb_rev (p : N -> bool) (l : jsstring) : forallb p (rev l) = forallb p l.
Proof.
  induction l as [|x l IH]; [reflexivity|].
  cbn [rev forallb]. rewrite forallb_app, IH. cbn [forallb]. destruct (p x), (forallb p l); reflexivity.
Qed.

Lemma strip_hyphens_to_end_rev (s : jsstring) :
  strip_hyphens_to_end s = rev (drop_while is_hyphen (rev s)).
Proof.
  induction s as [|c r IH]; [reflexivity|].
  cbn [strip_hyphens_to_end rev]. rewrite drop_while_snoc, forallb_rev.
  cbn [forallb]. destruct (is_hyphen c) eqn:Hc, (forallb is_hyphen r) eqn:Hr; cbn [andb].
  - reflexivity.
  - rewrite rev_app_distr, <- IH. reflexivity.
  - destruct r as [|d r']; [reflexivity|].
    cbn [strip_hyphens_to_end]. rewrite Hr. reflexivity.
  - rewrite rev_app_distr, <- IH. reflexivity.
Qed.

(** The two replacements and the cut of the handler give the slug. *)
Lemma sanitizedPrompt_slug (idea : jsstring) :
  sanitizedPrompt idea = slug_of (toLowerCase idea).
Proof.
  unfold sanitizedPrompt, slug_of, substring0, replace_edge_hyphens, trim_hyphens.
  rewrite (proj1 (replace_non_alnum_collapse _)), strip_hyphens_to_end_rev. reflexivity.
Qed.

Lemma collapse_runs_units (s : jsstring) : Forall slug_unit (collapse_runs s).
Proof.
  induction s as [|c r IH]; [constructor|].
  cbn [collapse_runs]. destruct (is_slug_char c) eqn:Hc.
  - constructor; [left; exact Hc | exact IH].
  - destruct r as [|d r']; [repeat constructor; right; reflexivity|].
    destruct (is_slug_char d); [constructor; [right; reflexivity | exact IH] | exact IH].
Qed.

Lemma drop_while_Forall (P : N -> Prop) (p : N -> bool) (s : jsstring) :
  Forall P s -> Forall P (drop_while p s).
Proof.
  induction 1 as [|c r Hc Hr IH]; [constructor|].
  cbn [drop_while]. destruct (p c); [exact IH | constructor; assumption].
Qed.

Lemma trim_hyphens_units (s : jsstring) : Forall slug_unit s -> Forall slug_unit (trim_hyphens s).
Proof.
  intros H. unfold trim_hyphens.
  apply Forall_rev, drop_while_Forall, Forall_rev, drop_while_Forall, H.
Qed.

Lemma drop_while_head (p : N -> bool) (s : jsstring) (c : N) :
  head (drop_while p s) = Some c -> p c = false.
Proof.
  induction s as [|x r IH]; [discriminate|].
  cbn [drop_while]. destruct (p x) eqn:Hx; [exact IH|].
  cbn. intros E; inversion E; subst; exact Hx.
Qed.

Lemma strip_hyphens_to_end_head (s : jsstring) :
  head (strip_hyphens_to_end s) = None \/ head (strip_hyphens_to_end s) = head s.
Proof.
  destruct s as [|c r]; [left; reflexivity|].
  cbn [strip_hyphens_to_end]. destruct (forallb is_hyphen (c :: r)); [left | right]; reflexivity.
Qed.

Lemma trim_hyphens_head (s : jsstring) : head (trim_hyphens s) <> Some HYPHEN.
Proof.
  unfold trim_hyphens. rewrite <- strip_hyphens_to_end_rev.
  destruct (strip_hyphens_to_end_head (drop_while is_hyphen s)) as [-> | ->]; [discriminate|].
  intros E. apply drop_while_head in E. discriminate E.
Qed.

Lemma take_head (n : nat) (s : jsstring) (c : N) :
  head (take n s) = Some c -> head s = Some c.
Proof. destruct n, s; cbn; congruence. Qed.

(** /upload makes one storage call, whatever the storage answers. *)
Lemma upload_call req idea img :
  prompt req = JStr idea -> imageBase64 req = JStr img -> img <> [] ->
  exists r,
    upload req
    = ([PutObject (object_key (sanitizedPrompt idea) (Number_toString now 0))
                  (Number_toString now 0 ++ lit ".png") (strip_data_uri img)], r).
Proof.
  intros Hp Hi Hne. unfold upload, upload_body. rewrite Hp, Hi.
  destruct img as [|x img]; [contradiction|]. cbn [truthy negb as_string].
  run_M.
  destruct (axios_put _) as [st rdata|]; [|eexists; reflexivity].
  destruct (Z.leb 200 st && Z.ltb st 300); [|eexists; reflexivity].
  destruct (upload_answer _ rdata); eexists; reflexivity.
Qed.

(** C5. For an idea string and the timestamp [now], /upload stores the image
    under the key [slides/<slug>/<timestamp>.png], where the timestamp is
    the decimal text of [now] and the slug is the lower-cased idea with every
    run of code units outside [a-z0-9] collapsed to one hyphen, the leading
    and trailing hyphens trimmed, then cut to its first 50 code units. The
    slug is made of [a-z0-9] and hyphens, has at most 50 code units and does
    not begin with a hyphen. Where lower-casing gives [a flying car! service]
    for [A Flying Car! Service], the slug is [a-flying-car-service]. *)
Theorem object_key_slug :
  (forall req idea img,
      prompt req = JStr idea -> imageBase64 req = JStr img -> img <> [] ->
      exists r,
        upload req
        = ([PutObject (lit "slides/" ++ slug_of (toLowerCase idea) ++ lit "/"
                       ++ Number_toString now 0 ++ lit ".png")
                      (Number_toString now 0 ++ lit ".png") (strip_data_uri img)], r))
  /\ (forall idea,
        Forall slug_unit (slug_of (toLowerCase idea))
        /\ length (slug_of (toLowerCase idea)) <= 50
        /\ head (slug_of (toLowerCase idea)) <> Some HYPHEN)
  /\ (toLowerCase car_idea = lit "a flying car! service" ->
      slug_of (toLowerCase car_idea) = lit "a-flying-car-service").
Proof.
  split; [|split].
  - intros req idea img Hp Hi Hne.
    destruct (upload_call req idea img Hp Hi Hne) as (r & Hr).
    exists r. rewrite Hr, sanitizedPrompt_slug. reflexivity.
  - intros idea. unfold slug_of. split; [|split].
    + apply Forall_take, trim_hyphens_units, collapse_runs_units.
    + rewrite length_take. lia.
    + intros E. apply take_head in E. exact (trim_hyphens_head _ E).
  - intros ->. vm_compute. reflexivity.
Qed.

(** *** Promise.all *)

Lemma settle_settled outcomes order st x :
  settled st = Some x -> fold_left (settle_one outcomes) order st = st.
Proof.
  revert st; induction order as [|i order IH]; intros st H; [reflexivity|].
  cbn [fold_left]. unfold settle_one at 2. rewrite H. exact (IH st H).
Qed.

(** While fewer promises have settled than there are, and all of them
    fulfilled, the aggregate is pending. *)
Lemma settle_pending outcomes pre st :
  settled st = None -> length pre < remaining st ->
  (forall i, In i pre -> exists v, outcomes !! i = Some (Val v)) ->
  settled (fold_left (settle_one outcomes) pre st) = None
  /\ length pre + remaining (fold_left (settle_one outcomes) pre st) = remaining st.
Proof.
  revert st; induction pre as [|i pre IH]; intros st Hs Hlen Hval.
  - split; [exact Hs | reflexivity].
  - cbn [fold_left length] in *.
    destruct (Hval i (or_introl eq_refl)) as (v & Hv).
    assert (Hstep : settle_one outcomes st i
                    = {| values := <[i:=v]> (values st); remaining := pred (remaining st);
                         settled := None |}).
    { unfold settle_one. rewrite Hs, Hv.
      destruct (remaining st) as [|[|n]] eqn:E; [lia | lia | reflexivity]. }
    rewrite Hstep.
    destruct (IH {| values := <[i:=v]> (values st); remaining := pred (remaining st);
                    settled := None |}) as (H1 & H2);
      [reflexivity | cbn; lia | intros k Hk; apply Hval; right; exact Hk |].
    split; [exact H1|]. cbn [remaining] in H2. lia.
Qed.

(** The first rejection in settlement order rejects the aggregate. *)
Lemma Promise_all_rejects outcomes order j e :
  length order <= length outcomes ->
  0 < length outcomes ->
  first_rejection outcomes order j e ->
  Promise_all order outcomes = Some (Throw e).
Proof.
  intros Hlen Hpos (pre & post & -> & Hj & Hpre). unfold Promise_all.
  rewrite fold_left_app. cbn [fold_left].
  rewrite length_app in Hlen. cbn [length] in Hlen.
  assert (Hinit : settled (all_init (length outcomes)) = None).
  { unfold all_init. destruct (length outcomes); [lia | reflexivity]. }
  destruct (settle_pending outcomes pre (all_init (length outcomes)) Hinit) as (Hs & _);
    [cbn; lia | exact Hpre |].
  set (st := fold_left (settle_one outcomes) pre (all_init (length outcomes))) in *.
  assert (Hstep : settled (settle_one outcomes st j) = Some (Throw e)).
  { unfold settle_one. rewrite Hs, Hj. reflexivity. }
  rewrite (settle_settled outcomes post _ _ Hstep). exact Hstep.
Qed.

(** A settlement order has a first rejection as soon as some promise in it rejects. *)
Lemma first_rejection_exists outcomes order :
  (forall i, In i order -> i < length outcomes) ->
  (exists k e, In k order /\ outcomes !! k = Some (Throw e)) ->
  exists j e, first_rejection outcomes order j e.
Proof.
  induction order as [|i order IH]; intros Hvalid (k & e & Hin & Hk); [destruct Hin|].
  destruct (outcomes !! i) as [[v|e']|] eqn:Ei.
  - destruct Hin as [->|Hin]; [congruence|].
    destruct IH as (j & e' & pre & post & -> & Hj & Hpre).
    { intros x Hx. apply Hvalid. right. exact Hx. }
    { eauto. }
    exists j, e', (i :: pre), post. repeat split; auto.
    intros x [<-|Hx]; eauto.
  - exists i, e', [], order. repeat split; auto. intros x [].
  - exfalso. apply lookup_ge_None in Ei.
    pose proof (Hvalid i (or_introl eq_refl)). lia.
Qed.

Lemma fulfilled_step vs done st i :
  fulfilled_state vs done st ->
  i < length vs -> length done < length vs ->
  fulfilled_state vs (done ++ [i]) (settle_one (map Val vs) st i).
Proof.
  intros (Hl & Hr & Hv & Hs) Hi Hd.
  destruct (lookup_lt_is_Some_2 vs i Hi) as (v & Ev).
  unfold settle_one.
  destruct (remaining st) as [|n] eqn:En; [lia|].
  rewrite Hs. cbn [Nat.eqb]. rewrite list_lookup_fmap, Ev. cbn [fmap option_fmap option_map].
  repeat split; cbn [values remaining settled pred].
  - rewrite length_insert. exact Hl.
  - rewrite length_app. cbn [length]. lia.
  - intros k Hk. apply in_app_or in Hk.
    destruct (Nat.eq_dec i k) as [->|Hne].
    + rewrite list_lookup_insert_eq by lia. congruence.
    + rewrite list_lookup_insert_ne by exact Hne.
      destruct Hk as [Hk|[Hk|[]]]; [exact (Hv k Hk) | contradiction].
Qed.

Lemma fulfilled_fold vs order done st :
  fulfilled_state vs done st ->
  (forall i, In i order -> i < length vs) ->
  length done + length order <= length vs ->
  fulfilled_state vs (done ++ order) (fold_left (settle_one (map Val vs)) order st).
Proof.
  revert done st; induction order as [|i order IH]; intros done st Hst Hvalid Hlen.
  - rewrite app_nil_r. exact Hst.
  - cbn [fold_left length] in *.
    replace (done ++ i :: order) with ((done ++ [i]) ++ order) by (rewrite <- app_assoc; reflexivity).
    apply IH.
    + apply fulfilled_step; [exact Hst | apply Hvalid; left; reflexivity | lia].
    + intros k Hk. apply Hvalid. right. exact Hk.
    + rewrite length_app. cbn [length]. lia.
Qed.

(** When every promise fulfils, the aggregate resolves with the values in
    the order of the input, whatever the order of settlement. *)
Lemma Promise_all_fulfils vs order :
  Permutation order (seq 0 (length vs)) ->
  Promise_all order (map Val vs) = Some (Val vs).
Proof.
  intros Hperm. unfold Promise_all. rewrite length_map.
  assert (Hlen : length order = length vs).
  { rewrite (Permutation_length Hperm), length_seq. reflexivity. }
  assert (Hvalid : forall i, In i order -> i < length vs).
  { intros i Hi. apply (Permutation_in _ Hperm) in Hi. apply in_seq in Hi. lia. }
  assert (Hinit : fulfilled_state vs [] (all_init (length vs))).
  { unfold fulfilled_state, all_init. cbn [values remaining settled length].
    rewrite length_replicate. repeat split; [lia | intros i [] |].
    destruct (length vs) eqn:E; [|reflexivity].
    destruct vs; [reflexivity | discriminate]. }
  destruct (fulfilled_fold vs order [] _ Hinit Hvalid) as (Hl & Hr & Hv & Hs); [cbn; lia|].
  cbn [app] in *.
  set (st := fold_left (settle_one (map Val vs)) order (all_init (length vs))) in *.
  assert (Hrem : remaining st = 0) by lia.
  rewrite Hs, Hrem. cbn [Nat.eqb]. f_equal. f_equal.
  apply list_eq. intros i.
  destruct (Nat.lt_ge_cases i (length vs)) as [Hi|Hi].
  - apply Hv. apply (Permutation_in _ (Permutation_sym Hperm)). apply in_seq. lia.
  - rewrite (lookup_ge_None_2 (values st) i) by lia.
    rewrite (lookup_ge_None_2 vs i) by lia. reflexivity.
Qed.

(** *** POST /generate-options *)

Lemma map_tasks_printed req p :
  ToString (prompt req) = Val p ->
  map_tasks (prompt req) 0 concepts [] = (Val (option_outcomes p), option_calls p).
Proof.
  intros Hp. unfold concepts, option_outcomes, option_calls, concepts.
  cbn [map_tasks imap map]. unfold mbind, M_bind, mret, M_ret, option_task.
  rewrite Hp. reflexivity.
Qed.

Lemma map_tasks_unprintable req e :
  ToString (prompt req) = Throw e ->
  map_tasks (prompt req) 0 concepts [] = (Val [Throw e; Throw e; Throw e], []).
Proof.
  intros Hp. unfold concepts. cbn [map_tasks].
  unfold mbind, M_bind, mret, M_ret, option_task. rewrite Hp. reflexivity.
Qed.

Lemma option_outcome_entry p index concept o :
  concepts !! index = Some concept ->
  option_outcome index concept p = Val o -> option_entry p index o.
Proof.
  intros Hc. unfold option_outcome, option_entry, response_json.
  destruct (fetch (Predict (sketch_prompt p concept))) as [[|] body|] eqn:Hf;
    cbn [negb]; try discriminate.
  unfold mbind, Result_bind.
  destruct (JSON_parse body) as [data|] eqn:Hj; [|discriminate].
  destruct (first_prediction_opt data) as [b64|] eqn:Hb; [|discriminate].
  destruct (ToString b64) as [img|] eqn:Hi; [|discriminate].
  intros H; inversion H; subst o. exists concept, body, data, b64, img. auto 10.
Qed.

Lemma order_facts order :
  Permutation order [0; 1; 2] ->
  length order = 3 /\ (forall i, In i order <-> i < 3).
Proof.
  intros Hperm. split; [exact (Permutation_length Hperm)|].
  intros i. split.
  - intros Hi. apply (Permutation_in _ Hperm) in Hi. cbn in Hi. lia.
  - intros Hi. apply (Permutation_in _ (Permutation_sym Hperm)). cbn. lia.
Qed.

(** The handler with its three promises, for a prompt that can be printed:
    either all of them fulfil and the answer lists their values in the order
    of the styles, or the answer is the message of the first rejection. *)
Lemma generate_options_run order req p :
  Permutation order [0; 1; 2] ->
  truthy (prompt req) = true -> ToString (prompt req) = Val p ->
  (exists o0 o1 o2,
      option_outcomes p = [Val o0; Val o1; Val o2]
      /\ generate_options order req
         = Some (option_calls p,
                 json_ok [(lit "success", JBool true); (lit "options", JArr [o0; o1; o2])]))
  \/ (exists j e,
      first_rejection (option_outcomes p) order j e
      /\ generate_options order req
         = Some (option_calls p, json_status 500 [(lit "error", JStr (message_of e))])).
Proof.
  intros Hperm Ht Hp. destruct (order_facts order Hperm) as (Hlen & Hin).
  unfold generate_options. rewrite Ht. cbn [negb]. rewrite (map_tasks_printed req p Hp).
  assert (Hos : exists a b c, option_outcomes p = [a; b; c]) by (do 3 eexists; reflexivity).
  destruct Hos as (a & b & c & Hos). rewrite Hos.
  destruct a as [o0|e0] eqn:Ea, b as [o1|e1] eqn:Eb, c as [o2|e2] eqn:Ec;
    [left; exists o0, o1, o2; split; [reflexivity|];
     pose proof (Promise_all_fulfils [o0; o1; o2] order Hperm) as Hall;
     cbn [map] in Hall; rewrite Hall; reflexivity | ..];
    right;
    (destruct (first_rejection_exists [a; b; c] order) as (j & e & Hfirst);
     [ intros i Hi; apply Hin in Hi; cbn; lia
     | subst a b c;
       first [ exists 0, e0; split; [apply Hin; lia | reflexivity]
             | exists 1, e1; split; [apply Hin; lia | reflexivity]
             | exists 2, e2; split; [apply Hin; lia | reflexivity] ]
     | subst a b c; exists j, e; split; [exact Hfirst|];
       rewrite (Promise_all_rejects _ order j e); [reflexivity | cbn; lia | cbn; lia | exact Hfirst] ]).
Qed.

Lemma all_fulfilled_no_rejection o0 o1 o2 order j e :
  ~ first_rejection [Val o0; Val o1; Val o2] order j e.
Proof.
  intros (pre & post & _ & Hj & _).
  destruct j as [|[|[|j]]]; cbn in Hj; discriminate.
Qed.

Lemma option_outcomes_entries p o0 o1 o2 :
  option_outcomes p = [Val o0; Val o1; Val o2] ->
  option_entry p 0 o0 /\ option_entry p 1 o1 /\ option_entry p 2 o2.
Proof.
  unfold option_outcomes, concepts. cbn [imap]. intros H. inversion H as [[H0 H1 H2]].
  repeat split; eapply option_outcome_entry; try eassumption; reflexivity.
Qed.

(** C6. Whatever the order in which the three image calls complete, the
    handler answers. When the answer is a success, [options] has three
    entries in the order of the styles (minimalist with bold typography,
    with data visualization focus, with icon-heavy design): entry [i] has
    the id [i + 1], the name of style [i] and the image of the answer to the
    call for style [i]; the calls and the answer are the same for every
    other completion order. *)
Theorem options_in_style_order order req :
  Permutation order [0; 1; 2] ->
  (exists res, generate_options order req = Some res)
  /\ (forall tr r,
        generate_options order req = Some (tr, r) -> status r = 200%Z ->
        exists p o0 o1 o2,
          ToString (prompt req) = Val p
          /\ tr = option_calls p
          /\ r = json_ok [(lit "success", JBool true); (lit "options", JArr [o0; o1; o2])]
          /\ option_entry p 0 o0 /\ option_entry p 1 o1 /\ option_entry p 2 o2
          /\ (forall order', Permutation order' [0; 1; 2] ->
                             generate_options order' req = Some (tr, r))).
Proof.
  intros Hperm. destruct (order_facts order Hperm) as (Hlen & Hin).
  destruct (truthy (prompt req)) eqn:Ht.
  - destruct (ToString (prompt req)) as [p|e] eqn:Hp.
    + destruct (generate_options_run order req p Hperm Ht Hp)
        as [(o0 & o1 & o2 & Hos & Hrun) | (j & e & Hfirst & Hrun)]; rewrite Hrun.
      * split; [eauto|]. intros tr r H Hst. inversion H; subst tr r.
        destruct (option_outcomes_entries p o0 o1 o2 Hos) as (E0 & E1 & E2).
        exists p, o0, o1, o2. repeat split; auto.
        intros order' Hperm'.
        destruct (generate_options_run order' req p Hperm' Ht Hp)
          as [(a0 & a1 & a2 & Hos' & Hrun') | (j & e & Hfirst & _)].
        -- rewrite Hos in Hos'. inversion Hos'; subst. exact Hrun'.
        -- rewrite Hos in Hfirst. exfalso. exact (all_fulfilled_no_rejection _ _ _ _ _ _ Hfirst).
      * split; [eauto|]. intros tr r H Hst. inversion H; subst. discriminate Hst.
    + assert (Hrun : generate_options order req
                     = Some ([], json_status 500 [(lit "error", JStr (message_of e))])).
      { unfold generate_options. rewrite Ht. cbn [negb].
        rewrite (map_tasks_unprintable req e Hp).
        destruct order as [|j post]; [discriminate|].
        assert (Hj : j < 3) by (apply Hin; left; reflexivity).
        rewrite (Promise_all_rejects [Throw e; Throw e; Throw e] (j :: post) j e);
          [reflexivity | cbn in *; lia | cbn; lia |].
        exists [], post. repeat split; [|intros i []].
        destruct j as [|[|[|j]]]; [reflexivity | reflexivity | reflexivity | lia]. }
      rewrite Hrun. split; [eauto|]. intros tr r H Hst. inversion H; subst. discriminate Hst.
  - unfold generate_options. rewrite Ht. cbn [negb]. split; [eauto|].
    intros tr r H Hst. inversion H; subst. discriminate Hst.
Qed.

(** *** Upstream failures *)

Lemma option_outcome_fails p index concept b :
  fails_with (Predict (sketch_prompt p concept)) b ->
  option_outcome index concept p = Throw (UserError (option_failed index)).
Proof. unfold fails_with, option_outcome. intros ->. reflexivity. Qed.

Lemma option_outcomes_lookup p index concept :
  concepts !! index = Some concept ->
  option_outcomes p !! index = Some (option_outcome index concept p).
Proof.
  unfold option_outcomes, concepts.
  destruct index as [|[|[|index]]]; cbn; intros H; inversion H; reflexivity.
Qed.


(** ** Every request, every upstream behaviour *)

Lemma failure_500 msg : failure_answer (json_status 500 [(lit "error", JStr msg)]).
Proof. split; [right; reflexivity | exists msg; left; reflexivity]. Qed.

Lemma failure_400 msg : failure_answer (json_status 400 [(lit "error", JStr msg)]).
Proof. split; [left; reflexivity | exists msg; left; reflexivity]. Qed.

Lemma failure_500_details msg d :
  failure_answer (json_status 500 [(lit "error", JStr msg); (lit "details", d)]).
Proof. split; [right; reflexivity | exists msg; right; exists d; reflexivity]. Qed.

Create HintDb answers.
#[local] Hint Resolve failure_500 failure_400 failure_500_details : answers.

Lemma draw_answer p cd extra tr r tr' :
  draw p cd extra tr = (Val r, tr') -> failure_answer r \/ slide_answer extra r.
Proof.
  run_M. unfold slide_answer.
  repeat (case_match; simplify_eq; try discriminate);
    (let E := fresh "E" in intros E; inversion E; subst); eauto 10 with answers.
Qed.

(** The two steps under [run_handler]: the text call is made; the answer is
    a failure, or a success that follows the image call made with the full
    description of step 1. *)
Lemma describe_and_draw_answer req tp tf fb ip extra :
  exists rest r,
    run_handler (describe_and_draw req tp tf fb ip extra) = (GenerateContent tp :: rest, r)
    /\ ((failure_answer r /\ (rest = [] \/ exists d, rest = [Predict (ip d)]))
        \/ (slide_answer extra r
            /\ exists d, described req tp d /\ rest = [Predict (ip d)])).
Proof.
  unfold run_handler, describe_and_draw, mbind, M_bind.
  destruct (describe req tp tf fb []) as [[[d cd]|e] tr] eqn:Ed.
  - apply describe_inv in Ed. destruct Ed as (t & Ht & Hd & Hcd & ->).
    pose proof (draw_trace (ip d) cd extra ([] ++ [GenerateContent tp])) as Htr.
    destruct (draw (ip d) cd extra ([] ++ [GenerateContent tp])) as [[r|e] tr] eqn:E;
      cbn [snd app] in Htr; subst tr.
    + exists [Predict (ip d)], r. split; [reflexivity|].
      destruct (draw_answer _ _ _ _ _ _ E) as [Hf|Hs].
      * left. split; [exact Hf | right; eauto].
      * right. split; [exact Hs|]. exists d. split; [exists t; auto | reflexivity].
    + eexists [Predict (ip d)], _. split; [reflexivity|].
      left. split; [auto with answers | right; eauto].
  - pose proof (describe_trace req tp tf fb []) as Htr. rewrite Ed in Htr.
    cbn [snd app] in Htr. subst tr.
    eexists [], _. split; [reflexivity|]. left. split; [auto with answers | left; reflexivity].
Qed.

(** What /generate-final does, for every request. *)
Lemma generate_final_cases req :
  (fst (generate_final req) = [] /\ failure_answer (snd (generate_final req)))
  \/ exists idea style rest r,
       ToString (prompt req) = Val idea /\ style_of req style
       /\ generate_final req = (GenerateContent (final_text_prompt idea style) :: rest, r)
       /\ ((failure_answer r /\ (rest = [] \/ exists d, rest = [Predict (final_image_prompt d)]))
           \/ (slide_answer [] r
               /\ exists d, described req (final_text_prompt idea style) d
                            /\ rest = [Predict (final_image_prompt d)])).
Proof.
  unfold generate_final.
  destruct (negb (truthy (prompt req)) || is_undefined (selectedOption req));
    [left; split; [reflexivity | cbn [snd]; auto with answers]|].
  rewrite run_bind_lift.
  destruct (selected_concept (selectedOption req)) as [c|e] eqn:Hc;
    [|left; split; [reflexivity | cbn [snd]; auto with answers]].
  rewrite run_bind_lift.
  destruct (ToString (prompt req)) as [idea|e] eqn:Hi;
    [|left; split; [reflexivity | cbn [snd]; auto with answers]].
  rewrite run_bind_lift.
  destruct (concept_text c) as [style|e] eqn:Hs;
    [|left; split; [reflexivity | cbn [snd]; auto with answers]].
  right.
  match goal with
  | |- context [describe_and_draw ?r ?tp ?tf ?fb ?ip ?ex] =>
      destruct (describe_and_draw_answer r tp tf fb ip ex) as (rest & resp & Hrun & Hcases)
  end.
  exists idea, style, rest, resp. rewrite Hrun.
  split; [reflexivity|]. split; [exists c; auto|]. split; [reflexivity | exact Hcases].
Qed.

(** What /refine-slide does, for every request. *)
Lemma refine_slide_all_cases req :
  (fst (refine_slide req) = [] /\ failure_answer (snd (refine_slide req)))
  \/ exists idea style ins rest r,
       ToString (prompt req) = Val idea /\ style_of req style
       /\ refinementInstruction req = JStr ins
       /\ refine_slide req = (GenerateContent (refine_text_prompt idea style ins) :: rest, r)
       /\ ((failure_answer r /\ (rest = [] \/ exists d, rest = [Predict (refine_image_prompt d)]))
           \/ (slide_answer [(lit "isRefinement", JBool true)] r
               /\ exists d, described req (refine_text_prompt idea style ins) d
                            /\ rest = [Predict (refine_image_prompt d)])).
Proof.
  unfold refine_slide.
  destruct (negb (truthy (prompt req)) || is_undefined (selectedOption req)
            || negb (truthy (refinementInstruction req)));
    [left; split; [reflexivity | cbn [snd]; auto with answers]|].
  rewrite run_bind_lift.
  destruct (selected_concept (selectedOption req)) as [c|e] eqn:Hc;
    [|left; split; [reflexivity | cbn [snd]; auto with answers]].
  rewrite run_bind_lift.
  destruct (ToString (prompt req)) as [idea|e] eqn:Hi;
    [|left; split; [reflexivity | cbn [snd]; auto with answers]].
  rewrite run_bind_lift.
  destruct (concept_text c) as [style|e] eqn:Hs;
    [|left; split; [reflexivity | cbn [snd]; auto with answers]].
  rewrite run_bind_lift.
  destruct (ToString (refinementInstruction req)) as [instruction|e] eqn:Ht;
    [|left; split; [reflexivity | cbn [snd]; auto with answers]].
  rewrite run_bind_lift.
  destruct (as_string (lit "substring") (refinementInstruction req)) as [ins|e] eqn:Hins;
    [|left; split; [reflexivity | cbn [snd]; auto with answers]].
  right.
  assert (Hr : refinementInstruction req = JStr ins).
  { destruct (refinementInstruction req); cbn in Hins; congruence. }
  match goal with
  | |- context [describe_and_draw ?r ?tp ?tf ?fb ?ip ?ex] =>
      destruct (describe_and_draw_answer r tp tf fb ip ex) as (rest & resp & Hrun & Hcases)
  end.
  exists idea, style, ins, rest, resp. rewrite Hrun.
  split; [reflexivity|]. split; [exists c; auto|]. split; [exact Hr|].
  split; [reflexivity | exact Hcases].
Qed.

(** What /get-refine-options does, for every request. *)
Lemma get_refine_options_cases req :
  (fst (get_refine_options req) = [] /\ failure_answer (snd (get_refine_options req)))
  \/ exists idea r,
       ToString (prompt req) = Val idea
       /\ get_refine_options req = ([GenerateContent (suggestions_prompt idea)], r)
       /\ (failure_answer r
           \/ exists l, length l = 3 /\ r = suggestions_response l).
Proof.
  unfold get_refine_options.
  destruct (negb (truthy (prompt req)) || is_undefined (selectedOption req));
    [left; split; [reflexivity | cbn [snd]; auto with answers]|].
  rewrite run_bind_lift.
  destruct (ToString (prompt req)) as [idea|e] eqn:Hi;
    [|left; split; [reflexivity | cbn [snd]; auto with answers]].
  right. exists idea. run_M.
  destruct (fetch (GenerateContent (suggestions_prompt idea))) as [[|] b|];
    cbn [negb]; try (eexists; split; [reflexivity|]; split; [reflexivity|]; auto with answers).
  destruct (JSON_parse b) as [textData|];
    [|eexists; split; [reflexivity|]; split; [reflexivity|]; auto with answers].
  destruct (candidate_text textData) as [t|];
    [|eexists; split; [reflexivity|]; split; [reflexivity|]; auto with answers].
  destruct (parse_suggestions_array (js_or t (JStr []))) as (parsed & ->).
  cbn [exactly_three]. eexists. split; [reflexivity|]. split; [reflexivity|].
  right. eexists. split; [|reflexivity]. apply exactly_three_length.
Qed.

(** What /upload does, for every request. *)
Lemma upload_cases req :
  (fst (upload req) = [] /\ failure_answer (snd (upload req)))
  \/ exists idea img r,
       prompt req = JStr idea /\ imageBase64 req = JStr img
       /\ upload req
          = ([PutObject (object_key (sanitizedPrompt idea) (Number_toString now 0))
                        (Number_toString now 0 ++ lit ".png") (strip_data_uri img)], r)
       /\ (failure_answer r
           \/ upload_success (object_key (sanitizedPrompt idea) (Number_toString now 0)) r).
Proof.
  unfold upload, upload_body.
  destruct (negb (truthy (imageBase64 req)));
    [left; split; [reflexivity | cbn [snd]; auto with answers]|].
  run_M.
  destruct (as_string (lit "replace") (imageBase64 req)) as [img|e] eqn:Hi;
    [|left; split; [reflexivity | cbn [snd]; auto with answers]].
  destruct (as_string (lit "toLowerCase") (prompt req)) as [idea|e] eqn:Hp;
    [|left; split; [reflexivity | cbn [snd]; auto with answers]].
  right. exists idea, img.
  assert (Hi' : imageBase64 req = JStr img)
    by (destruct (imageBase64 req); cbn in Hi; congruence).
  assert (Hp' : prompt req = JStr idea)
    by (destruct (prompt req); cbn in Hp; congruence).
  destruct (axios_put _) as [st rdata|];
    [|eexists; repeat split; eauto with answers].
  destruct (Z.leb 200 st && Z.ltb st 300);
    [|eexists; repeat split; eauto with answers].
  unfold upload_answer, upload_success, mbind, Result_bind.
  repeat (case_match; simplify_eq); eexists; repeat split; eauto 10 with answers.
Qed.

(** What /generate-options does, for every request and completion order. *)
Lemma generate_options_cases order req :
  Permutation order [0; 1; 2] ->
  exists tr r,
    generate_options order req = Some (tr, r)
    /\ ((tr = [] /\ failure_answer r)
        \/ exists p,
             ToString (prompt req) = Val p /\ tr = option_calls p
             /\ (failure_answer r
                 \/ exists o0 o1 o2,
                      option_outcomes p = [Val o0; Val o1; Val o2]
                      /\ r = json_ok [ (lit "success", JBool true);
                                       (lit "options", JArr [o0; o1; o2]) ])).
Proof.
  intros Hperm. destruct (order_facts order Hperm) as (Hlen & Hin).
  destruct (truthy (prompt req)) eqn:Ht.
  - destruct (ToString (prompt req)) as [p|e] eqn:Hp.
    + destruct (generate_options_run order req p Hperm Ht Hp)
        as [(o0 & o1 & o2 & Hos & Hrun) | (j & e & Hfirst & Hrun)]; rewrite Hrun.
      * eexists _, _. split; [reflexivity|]. right. exists p. repeat split.
        right. exists o0, o1, o2. auto.
      * eexists _, _. split; [reflexivity|]. right. exists p. repeat split.
        left. auto with answers.
    + exists [], (json_status 500 [(lit "error", JStr (message_of e))]).
      split; [|left; split; [reflexivity | auto with answers]].
      unfold generate_options. rewrite Ht. cbn [negb].
      rewrite (map_tasks_unprintable req e Hp).
      destruct order as [|j post]; [discriminate|].
      assert (Hj : j < 3) by (apply Hin; left; reflexivity).
      rewrite (Promise_all_rejects [Throw e; Throw e; Throw e] (j :: post) j e);
        [reflexivity | cbn in *; lia | cbn; lia |].
      exists [], post. repeat split; [|intros i []].
      destruct j as [|[|[|j]]]; [reflexivity | reflexivity | reflexivity | lia].
  - unfold generate_options. rewrite Ht. cbn [negb].
    eexists _, _. split; [reflexivity|]. left. split; [reflexivity | auto with answers].
Qed.

(** X1. For every request, whatever the upstream services answer, a handler
    makes its calls at most once each and in a fixed order: /generate-final
    and /refine-slide make no call, or the text call, or the text call then
    the image call; /get-refine-options makes at most one text call;
    /generate-options makes no call or the three image calls in the order
    of the styles, for every completion order; /upload makes at most one
    storage call. *)
Theorem upstream_calls_made :
  (forall req,
      fst (generate_final req) = []
      \/ exists t, fst (generate_final req) = [GenerateContent t]
                   \/ exists p, fst (generate_final req) = [GenerateContent t; Predict p])
  /\ (forall req,
      fst (refine_slide req) = []
      \/ exists t, fst (refine_slide req) = [GenerateContent t]
                   \/ exists p, fst (refine_slide req) = [GenerateContent t; Predict p])
  /\ (forall req,
      fst (get_refine_options req) = []
      \/ exists t, fst (get_refine_options req) = [GenerateContent t])
  /\ (forall order req, Permutation order [0; 1; 2] ->
      exists tr r,
        generate_options order req = Some (tr, r)
        /\ (tr = [] \/ exists p, tr = map (fun c => Predict (sketch_prompt p c)) concepts))
  /\ (forall req,
      fst (upload req) = []
      \/ exists key name data, fst (upload req) = [PutObject key name data]).
Proof.
  split; [|split; [|split; [|split]]].
  - intros req.
    destruct (generate_final_cases req)
      as [[H _] | (idea & style & rest & r & _ & _ & Hrun & Hc)]; [left; exact H|].
    right. rewrite Hrun. cbn [fst]. eexists.
    destruct Hc as [[_ [-> | (d & ->)]] | [_ (d & _ & ->)]]; eauto.
  - intros req.
    destruct (refine_slide_all_cases req)
      as [[H _] | (idea & style & ins & rest & r & _ & _ & _ & Hrun & Hc)]; [left; exact H|].
    right. rewrite Hrun. cbn [fst]. eexists.
    destruct Hc as [[_ [-> | (d & ->)]] | [_ (d & _ & ->)]]; eauto.
  - intros req.
    destruct (get_refine_options_cases req) as [[H _] | (idea & r & _ & Hrun & _)];
      [left; exact H|].
    right. rewrite Hrun. eauto.
  - intros order req Hperm.
    destruct (generate_options_cases order req Hperm) as (tr & r & Hrun & Hc).
    exists tr, r. split; [exact Hrun|].
    destruct Hc as [[-> _] | (p & _ & -> & _)]; [left; reflexivity | right; exists p; reflexivity].
  - intros req.
    destruct (upload_cases req) as [[H _] | (idea & img & r & _ & _ & Hrun & _)];
      [left; exact H|].
    right. rewrite Hrun. eauto.
Qed.


Lemma failure_not_200 r : failure_answer r -> status r <> 200%Z.
Proof. intros [[H|H] _]; rewrite H; discriminate. Qed.

(** X3. A success of /generate-final or /refine-slide always follows both
    calls, and the two compose: the image prompt of the second call embeds
    the full description that the answer to the first call gave (the
    candidate text, or the idea when there is none), not the summary. *)
Theorem success_follows_both_calls :
  (forall req,
      status (snd (generate_final req)) = 200%Z ->
      exists idea style d,
        ToString (prompt req) = Val idea /\ style_of req style
        /\ described req (final_text_prompt idea style) d
        /\ fst (generate_final req)
           = [ GenerateContent (final_text_prompt idea style);
               Predict (lit "Ultra high-end professional business pitch slide: " ++ d
                        ++ lit ". Stunning visual design, investor-ready quality, crisp typography, perfect color harmony, print-quality resolution, modern aesthetic, Appropriate for Silicon Valley VC presentations.") ])
  /\ (forall req,
      status (snd (refine_slide req)) = 200%Z ->
      exists idea style ins d,
        ToString (prompt req) = Val idea /\ style_of req style
        /\ refinementInstruction req = JStr ins
        /\ described req (refine_text_prompt idea style ins) d
        /\ fst (refine_slide req)
           = [ GenerateContent (refine_text_prompt idea style ins);
               Predict (lit "Ultra high-end professional business pitch slide (REFINED VERSION): " ++ d
                        ++ lit ". Stunning visual design, investor-ready quality, crisp typography, perfect color harmony, print-quality resolution, modern aesthetic, Appropriate for Silicon Valley VC presentations. This is an IMPROVED, more polished version with enhanced visual appeal.") ]).
Proof.
  split.
  - intros req Hst.
    destruct (generate_final_cases req)
      as [[_ H] | (idea & style & rest & r & Hi & Hs & Hrun & Hc)].
    { exfalso. exact (failure_not_200 _ H Hst). }
    rewrite Hrun in Hst |- *. cbn [fst snd] in *.
    destruct Hc as [[H _] | [_ (d & Hd & ->)]].
    { exfalso. exact (failure_not_200 _ H Hst). }
    exists idea, style, d. auto.
  - intros req Hst.
    destruct (refine_slide_all_cases req)
      as [[_ H] | (idea & style & ins & rest & r & Hi & Hs & Hins & Hrun & Hc)].
    { exfalso. exact (failure_not_200 _ H Hst). }
    rewrite Hrun in Hst |- *. cbn [fst snd] in *.
    destruct Hc as [[H _] | [_ (d & Hd & ->)]].
    { exfalso. exact (failure_not_200 _ H Hst). }
    exists idea, style, ins, d. auto.
Qed.

(** *** Validation and the choice of the style *)

Lemma generate_final_text_call req idea style :
  prompt req = JStr idea -> idea <> [] -> selectedOption req <> JUndefined ->
  style_of req style ->
  exists rest r,
    generate_final req = (GenerateContent (final_text_prompt idea style) :: rest, r).
Proof.
  intros Hp Hne Hsel (c & Hc & Hs).
  unfold generate_final. rewrite Hp.
  destruct idea as [|x idea]; [contradiction|]. cbn [truthy negb orb].
  replace (is_undefined (selectedOption req)) with false
    by (destruct (selectedOption req); try reflexivity; contradiction).
  rewrite run_bind_lift, Hc, run_bind_lift. cbn [ToString]. rewrite run_bind_lift, Hs.
  match goal with
  | |- context [describe_and_draw ?r ?tp ?tf ?fb ?ip ?ex] =>
      destruct (describe_and_draw_run r tp tf fb ip ex) as (rest & resp & Hrun & _ & _)
  end.
  rewrite Hrun. eauto.
Qed.

Lemma refine_slide_text_call req idea style ins :
  prompt req = JStr idea -> idea <> [] -> selectedOption req <> JUndefined ->
  refinementInstruction req = JStr ins -> ins <> [] -> style_of req style ->
  exists rest r,
    refine_slide req = (GenerateContent (refine_text_prompt idea style ins) :: rest, r).
Proof.
  intros Hp Hne Hsel Hins Hine (c & Hc & Hs).
  unfold refine_slide. rewrite Hp, Hins.
  destruct idea as [|x idea]; [contradiction|].
  destruct ins as [|y ins]; [contradiction|]. cbn [truthy negb orb].
  replace (is_undefined (selectedOption req)) with false
    by (destruct (selectedOption req); try reflexivity; contradiction).
  cbn [orb]. rewrite run_bind_lift, Hc, run_bind_lift. cbn [ToString].
  rewrite run_bind_lift, Hs, run_bind_lift, run_bind_lift. cbn [as_string].
  match goal with
  | |- context [describe_and_draw ?r ?tp ?tf ?fb ?ip ?ex] =>
      destruct (describe_and_draw_run r tp tf fb ip ex) as (rest & resp & Hrun & _ & _)
  end.
  rewrite Hrun. eauto.
Qed.


Lemma style_of_index sel i concept :
  concepts !! i = Some concept ->
  (exists m e, sel = JNum m e /\ num_integer m e = Some (Z.of_nat i))
  \/ sel = JStr (nat_digits (N.of_nat i)) \/ sel = JArr [JStr (nat_digits (N.of_nat i))] ->
  exists c, selected_concept sel = Val c /\ concept_text c = Val concept.
Proof.
  intros Hc Hsel.
  assert (Hi : i < 3).
  { apply lookup_lt_Some in Hc. exact Hc. }
  destruct Hsel as [(m & e & -> & Hn) | [-> | ->]].
  - cbn [selected_concept]. rewrite Hn.
    replace (Z.leb 0 (Z.of_nat i)) with true by (symmetry; apply Z.leb_le; lia).
    rewrite Nat2Z.id. exists (Own (JStr concept)). unfold concept_at. rewrite Hc. auto.
  - destruct i as [|[|[|i]]]; [| | |lia]; cbn in Hc; inversion Hc; subst;
      eexists; split; reflexivity.
  - destruct i as [|[|[|i]]]; [| | |lia]; cbn in Hc; inversion Hc; subst;
      eexists; split; reflexivity.
Qed.

(** X5. The style is chosen by a property lookup in the list of styles: the
    numbers 0, 1, 2 in any notation (1, 1.0, 10e-1), the strings [0], [1],
    [2] and a one-element array of such a string all select the style at
    that index, whose name the text prompts of /generate-final and
    /refine-slide then carry. *)
Theorem style_selected_by_index :
  forall req idea i concept,
    prompt req = JStr idea -> idea <> [] ->
    concepts !! i = Some concept ->
    (exists m e, selectedOption req = JNum m e /\ num_integer m e = Some (Z.of_nat i))
    \/ selectedOption req = JStr (nat_digits (N.of_nat i))
    \/ selectedOption req = JArr [JStr (nat_digits (N.of_nat i))] ->
    (exists rest r,
        generate_final req = (GenerateContent (final_text_prompt idea concept) :: rest, r))
    /\ (forall ins, refinementInstruction req = JStr ins -> ins <> [] ->
        exists rest r,
          refine_slide req = (GenerateContent (refine_text_prompt idea concept ins) :: rest, r)).
Proof.
  intros req idea i concept Hp Hne Hc Hsel.
  assert (Hdef : selectedOption req <> JUndefined).
  { destruct Hsel as [(m & e & -> & _) | [-> | ->]]; discriminate. }
  pose proof (style_of_index _ i concept Hc Hsel) as Hstyle.
  split.
  - apply generate_final_text_call; assumption.
  - intros ins Hins Hine. apply refine_slide_text_call; assumption.
Qed.

(** *** The bodies of the handlers once validation has passed *)

Lemma generate_final_body req idea style :
  prompt req = JStr idea -> idea <> [] -> selectedOption req <> JUndefined ->
  style_of req style ->
  generate_final req
  = run_handler (describe_and_draw req (final_text_prompt idea style)
                   (lit "Text generation failed")
                   (p ← as_string (lit "substring") (JStr idea); Val (final_fallback p style))
                   final_image_prompt []).
Proof.
  intros Hp Hne Hsel (c & Hc & Hs).
  unfold generate_final. rewrite Hp.
  destruct idea as [|x idea]; [contradiction|]. cbn [truthy negb orb].
  replace (is_undefined (selectedOption req)) with false
    by (destruct (selectedOption req); try reflexivity; contradiction).
  rewrite run_bind_lift, Hc, run_bind_lift. cbn [ToString]. rewrite run_bind_lift, Hs.
  reflexivity.
Qed.

Lemma refine_slide_body req idea style ins :
  prompt req = JStr idea -> idea <> [] -> selectedOption req <> JUndefined ->
  refinementInstruction req = JStr ins -> ins <> [] -> style_of req style ->
  refine_slide req
  = run_handler (describe_and_draw req (refine_text_prompt idea style ins)
                   (lit "Refined description generation failed")
                   (p ← as_string (lit "substring") (JStr idea); Val (refine_fallback p style))
                   refine_image_prompt [(lit "isRefinement", JBool true)]).
Proof.
  intros Hp Hne Hsel Hins Hine (c & Hc & Hs).
  unfold refine_slide. rewrite Hp, Hins.
  destruct idea as [|x idea]; [contradiction|].
  destruct ins as [|y ins]; [contradiction|]. cbn [truthy negb orb].
  replace (is_undefined (selectedOption req)) with false
    by (destruct (selectedOption req); try reflexivity; contradiction).
  cbn [orb]. rewrite run_bind_lift, Hc, run_bind_lift. cbn [ToString].
  rewrite run_bind_lift, Hs, run_bind_lift, run_bind_lift. cbn [as_string].
  reflexivity.
Qed.

Lemma get_refine_options_body req idea :
  truthy (prompt req) = true -> selectedOption req <> JUndefined ->
  ToString (prompt req) = Val idea ->
  get_refine_options req
  = run_handler (
      '(ok, b) ← await_fetch (GenerateContent (suggestions_prompt idea));
      if negb ok then throw (UserError (lit "Refinement suggestions generation failed"))
      else
        textData ← lift (response_json b);
        t ← lift (candidate_text textData);
        suggestions ← lift (exactly_three (parse_suggestions (js_or t (JStr []))));
        mret (json_ok [(lit "success", JBool true); (lit "suggestions", suggestions)])).
Proof.
  intros Ht Hsel Hi.
  unfold get_refine_options. rewrite Ht. cbn [negb orb].
  replace (is_undefined (selectedOption req)) with false
    by (destruct (selectedOption req); try reflexivity; contradiction).
  rewrite run_bind_lift, Hi. reflexivity.
Qed.

Lemma summary_of_display d idea fb :
  concept_display d (p ← as_string (lit "substring") (JStr idea); Val (fb p))
  = Val (summary_of d idea fb).
Proof. unfold concept_display, summary_of. destruct (match_concept d); reflexivity. Qed.

(** *** Answers without image bytes *)

Lemma first_prediction_none data :
  no_predictions data -> first_prediction_opt data = Val JUndefined.
Proof.
  intros (p & Hp & Hcase). unfold first_prediction_opt. rewrite Hp.
  destruct Hcase as [Ht | ->]; [|reflexivity].
  destruct p as [| |b|m e|s|l|ms]; cbn in Ht; try discriminate; try reflexivity.
  destruct s; [reflexivity | discriminate].
Qed.

Lemma option_outcome_blank p index concept :
  (exists b data, fetch (Predict (sketch_prompt p concept)) = Resp true b
                  /\ JSON_parse b = Some data /\ no_predictions data) ->
  option_outcome index concept p = Val (blank_option index concept).
Proof.
  intros (b & data & Hf & Hj & Hn). unfold option_outcome, response_json.
  rewrite Hf, Hj. cbn [negb]. unfold mbind at 1. unfold Result_bind at 1.
  unfold mbind at 1. unfold Result_bind at 1.
  rewrite (first_prediction_none data Hn). reflexivity.
Qed.

Lemma option_outcomes_all p (f : nat -> jsstring -> JsVal) :
  (forall i c, concepts !! i = Some c -> option_outcome i c p = Val (f i c)) ->
  option_outcomes p = map Val (imap f concepts).
Proof.
  intros H. unfold option_outcomes, concepts in *. cbn [imap compose map].
  rewrite (H 0 _ eq_refl), (H 1 _ eq_refl), (H 2 _ eq_refl). reflexivity.
Qed.

(** X6. /generate-options does not look for image bytes: when the image
    model answers each of the three calls with a success status and a body
    without predictions, the answer is still a success with three entries,
    each with [imageBase64] undefined and the image
    [data:image/png;base64,undefined]. (The same body makes /generate-final
    answer 500.) *)
Theorem options_without_image order req idea :
  Permutation order [0; 1; 2] ->
  prompt req = JStr idea -> idea <> [] ->
  (forall concept, In concept concepts ->
     exists b data, fetch (Predict (sketch_prompt idea concept)) = Resp true b
                    /\ JSON_parse b = Some data /\ no_predictions data) ->
  generate_options order req
  = Some (option_calls idea,
          json_ok [ (lit "success", JBool true);
                    (lit "options", JArr (imap blank_option concepts)) ]).
Proof.
  intros Hperm Hp Hne Hall.
  unfold generate_options. rewrite Hp.
  destruct idea as [|x idea]; [contradiction|]. cbn [truthy negb].
  rewrite <- Hp. rewrite (map_tasks_printed req (x :: idea)) by (rewrite Hp; reflexivity).
  rewrite (option_outcomes_all (x :: idea) blank_option).
  - rewrite Promise_all_fulfils; [reflexivity|]. exact Hperm.
  - intros i c Hc. apply option_outcome_blank. apply Hall.
    eapply list_elem_of_In, list_elem_of_lookup_2. exact Hc.
Qed.

(** *** The first prediction *)

Lemma has_predictions_cons data p0 rest :
  get_prop data (lit "predictions") = Val (JArr (p0 :: rest)) ->
  has_predictions data = Val true.
Proof.
  intros H. unfold has_predictions. rewrite H.
  unfold mbind at 1. unfold Result_bind at 1. cbn [truthy].
  unfold get_prop.
  replace (str_eqb (lit "length") (lit "length")) with true
    by (symmetry; apply str_eqb_eq; reflexivity).
  unfold mbind, Result_bind, gt_zero, int_num.
  replace (Z.ltb 0 (Z.of_nat (length (p0 :: rest)))) with true; [reflexivity|].
  symmetry. apply Z.ltb_lt. cbn [length]. lia.
Qed.

Lemma draw_first_prediction p cd extra data p0 rest tr :
  image_answer (Predict p) data ->
  get_prop data (lit "predictions") = Val (JArr (p0 :: rest)) ->
  draw p cd extra tr
  = (b64 ← get_prop p0 (lit "bytesBase64Encoded");
     img ← ToString b64;
     Val (slide_body b64 img cd extra), tr ++ [Predict p]).
Proof.
  intros (b & Hf & Hj) Hp.
  pose proof (has_predictions_cons data p0 rest Hp) as Hh.
  run_M. rewrite Hf, Hj. cbn [negb]. rewrite Hh, Hp. cbn [get_index0].
  destruct (get_prop p0 (lit "bytesBase64Encoded")) as [b64|e]; [|reflexivity].
  unfold Result_bind. destruct (ToString b64); reflexivity.
Qed.

Lemma slide_from_first_prediction req tp tf fb ip extra idea d data p0 rest :
  described req tp d ->
  image_answer (Predict (ip d)) data ->
  get_prop data (lit "predictions") = Val (JArr (p0 :: rest)) ->
  run_handler (describe_and_draw req tp tf
                 (p ← as_string (lit "substring") (JStr idea); Val (fb p)) ip extra)
  = ([GenerateContent tp; Predict (ip d)],
     match (b64 ← get_prop p0 (lit "bytesBase64Encoded");
            img ← ToString b64;
            Val (slide_body b64 img (summary_of d idea fb) extra)) with
     | Val r => r
     | Throw e => json_status 500 [(lit "error", JStr (message_of e))]
     end).
Proof.
  intros Hd Hi Hp. unfold run_handler.
  rewrite (describe_and_draw_step _ _ _ _ _ _ d _ Hd (summary_of_display d idea fb)).
  rewrite (draw_first_prediction _ _ _ data p0 rest _ Hi Hp).
  match goal with |- context [mbind ?k ?m] => destruct (mbind k m) end; reflexivity.
Qed.

(** X7. When the image answer has a non-empty list of predictions,
    /generate-final and /refine-slide use the first one only and do not
    check it: its [bytesBase64Encoded] text becomes the image whatever
    follows in the list; a first prediction without that member gives a
    success whose image is [data:image/png;base64,undefined]; a first
    prediction that is [null] gives status 500 with the engine's message. *)
Theorem first_prediction_only :
  (forall req idea style d data p0 rest,
      prompt req = JStr idea -> idea <> [] -> selectedOption req <> JUndefined ->
      style_of req style ->
      described req (final_text_prompt idea style) d ->
      image_answer (Predict (final_image_prompt d)) data ->
      get_prop data (lit "predictions") = Val (JArr (p0 :: rest)) ->
      let calls := [GenerateContent (final_text_prompt idea style);
                    Predict (final_image_prompt d)] in
      let cd := summary_of d idea (fun p => final_fallback p style) in
      (forall ms img,
          p0 = JObj ms -> last_member (lit "bytesBase64Encoded") ms = Some (JStr img) ->
          generate_final req = (calls, slide_body (JStr img) img cd []))
      /\ (forall ms,
          p0 = JObj ms -> last_member (lit "bytesBase64Encoded") ms = None ->
          generate_final req = (calls, slide_body JUndefined (lit "undefined") cd []))
      /\ (p0 = JNull ->
          generate_final req
          = (calls,
             json_status 500
               [(lit "error",
                 JStr (engine_message
                         (TypeError_nullish_property (lit "bytesBase64Encoded"))))])))
  /\ (forall req idea style ins d data p0 rest,
      prompt req = JStr idea -> idea <> [] -> selectedOption req <> JUndefined ->
      refinementInstruction req = JStr ins -> ins <> [] ->
      style_of req style ->
      described req (refine_text_prompt idea style ins) d ->
      image_answer (Predict (refine_image_prompt d)) data ->
      get_prop data (lit "predictions") = Val (JArr (p0 :: rest)) ->
      let calls := [GenerateContent (refine_text_prompt idea style ins);
                    Predict (refine_image_prompt d)] in
      let cd := summary_of d idea (fun p => refine_fallback p style) in
      let extra := [(lit "isRefinement", JBool true)] in
      (forall ms img,
          p0 = JObj ms -> last_member (lit "bytesBase64Encoded") ms = Some (JStr img) ->
          refine_slide req = (calls, slide_body (JStr img) img cd extra))
      /\ (forall ms,
          p0 = JObj ms -> last_member (lit "bytesBase64Encoded") ms = None ->
          refine_slide req = (calls, slide_body JUndefined (lit "undefined") cd extra))
      /\ (p0 = JNull ->
          refine_slide req
          = (calls,
             json_status 500
               [(lit "error",
                 JStr (engine_message
                         (TypeError_nullish_property (lit "bytesBase64Encoded"))))]))).
Proof.
  split.
  - intros req idea style d data p0 rest Hp Hne Hsel Hstyle Hd Hi Hpred calls cd.
    rewrite (generate_final_body req idea style Hp Hne Hsel Hstyle).
    rewrite (slide_from_first_prediction req _ _ (fun p => final_fallback p style) _ _
               idea d data p0 rest Hd Hi Hpred).
    repeat split.
    + intros ms img -> Hm. cbn [get_prop]. rewrite Hm. reflexivity.
    + intros ms -> Hm. cbn [get_prop]. rewrite Hm. reflexivity.
    + intros ->. reflexivity.
  - intros req idea style ins d data p0 rest Hp Hne Hsel Hins Hine Hstyle Hd Hi Hpred
      calls cd extra.
    rewrite (refine_slide_body req idea style ins Hp Hne Hsel Hins Hine Hstyle).
    rewrite (slide_from_first_prediction req _ _ (fun p => refine_fallback p style) _ _
               idea d data p0 rest Hd Hi Hpred).
    repeat split.
    + intros ms img -> Hm. cbn [get_prop]. rewrite Hm. reflexivity.
    + intros ms -> Hm. cbn [get_prop]. rewrite Hm. reflexivity.
    + intros ->. reflexivity.
Qed.

(** *** Answers that cannot be read *)

Lemma describe_unreadable req tp tf fb e tr :
  unreadable (GenerateContent tp) (lit "candidates") e ->
  describe req tp tf fb tr = (Throw (Engine e), tr ++ [GenerateContent tp]).
Proof.
  intros [(Hf & ->) | [(b & Hf & Hj & ->) | (b & Hf & Hj & ->)]];
    run_M; rewrite Hf; try reflexivity; cbn [negb]; rewrite Hj; reflexivity.
Qed.

Lemma draw_unreadable p cd extra e tr :
  unreadable (Predict p) (lit "predictions") e ->
  draw p cd extra tr = (Throw (Engine e), tr ++ [Predict p]).
Proof.
  intros [(Hf & ->) | [(b & Hf & Hj & ->) | (b & Hf & Hj & ->)]];
    run_M; rewrite Hf; try reflexivity; cbn [negb]; rewrite Hj; reflexivity.
Qed.

Lemma option_outcome_unreadable p index concept e :
  unreadable (Predict (sketch_prompt p concept)) (lit "predictions") e ->
  option_outcome index concept p = Throw (Engine e).
Proof.
  intros [(Hf & ->) | [(b & Hf & Hj & ->) | (b & Hf & Hj & ->)]];
    unfold option_outcome, response_json; rewrite Hf; try reflexivity;
    cbn [negb]; rewrite Hj; reflexivity.
Qed.

(** X8. An upstream answer that cannot be read, that is a rejected request,
    a success status whose body is not JSON, or the JSON text [null], makes
    the handler answer 500 with the engine's message as [error] (and no
    [details]), after the calls made so far and without a further call. In
    /generate-options one such answer is enough for a 500. *)
Theorem unreadable_answer_500 :
  (forall req idea style e,
      prompt req = JStr idea -> idea <> [] -> selectedOption req <> JUndefined ->
      style_of req style ->
      unreadable (GenerateContent (final_text_prompt idea style)) (lit "candidates") e ->
      generate_final req
      = ([GenerateContent (final_text_prompt idea style)],
         json_status 500 [(lit "error", JStr (engine_message e))]))
  /\ (forall req idea style d e,
      prompt req = JStr idea -> idea <> [] -> selectedOption req <> JUndefined ->
      style_of req style ->
      described req (final_text_prompt idea style) d ->
      unreadable (Predict (final_image_prompt d)) (lit "predictions") e ->
      generate_final req
      = ([GenerateContent (final_text_prompt idea style); Predict (final_image_prompt d)],
         json_status 500 [(lit "error", JStr (engine_message e))]))
  /\ (forall req idea e,
      truthy (prompt req) = true -> selectedOption req <> JUndefined ->
      ToString (prompt req) = Val idea ->
      unreadable (GenerateContent (suggestions_prompt idea)) (lit "candidates") e ->
      get_refine_options req
      = ([GenerateContent (suggestions_prompt idea)],
         json_status 500 [(lit "error", JStr (engine_message e))]))
  /\ (forall req idea style ins e,
      prompt req = JStr idea -> idea <> [] -> selectedOption req <> JUndefined ->
      refinementInstruction req = JStr ins -> ins <> [] ->
      style_of req style ->
      unreadable (GenerateContent (refine_text_prompt idea style ins)) (lit "candidates") e ->
      refine_slide req
      = ([GenerateContent (refine_text_prompt idea style ins)],
         json_status 500 [(lit "error", JStr (engine_message e))]))
  /\ (forall req idea style ins d e,
      prompt req = JStr idea -> idea <> [] -> selectedOption req <> JUndefined ->
      refinementInstruction req = JStr ins -> ins <> [] ->
      style_of req style ->
      described req (refine_text_prompt idea style ins) d ->
      unreadable (Predict (refine_image_prompt d)) (lit "predictions") e ->
      refine_slide req
      = ([GenerateContent (refine_text_prompt idea style ins); Predict (refine_image_prompt d)],
         json_status 500 [(lit "error", JStr (engine_message e))]))
  /\ (forall order req p k concept e,
      Permutation order [0; 1; 2] ->
      truthy (prompt req) = true -> ToString (prompt req) = Val p ->
      concepts !! k = Some concept ->
      unreadable (Predict (sketch_prompt p concept)) (lit "predictions") e ->
      exists msg,
        generate_options order req
        = Some (option_calls p, json_status 500 [(lit "error", JStr msg)])).
Proof.
  split; [|split; [|split; [|split; [|split]]]].
  - intros req idea style e Hp Hne Hsel Hstyle Hu.
    rewrite (generate_final_body req idea style Hp Hne Hsel Hstyle).
    unfold run_handler, describe_and_draw, mbind, M_bind.
    rewrite (describe_unreadable _ _ _ _ e [] Hu). reflexivity.
  - intros req idea style d e Hp Hne Hsel Hstyle Hd Hu.
    rewrite (generate_final_body req idea style Hp Hne Hsel Hstyle).
    unfold run_handler.
    rewrite (describe_and_draw_step _ _ _ _ _ _ d _ Hd (summary_of_display d idea _)).
    rewrite (draw_unreadable _ _ _ e _ Hu). reflexivity.
  - intros req idea e Ht Hsel Hi Hu.
    rewrite (get_refine_options_body req idea Ht Hsel Hi).
    destruct Hu as [(Hf & ->) | [(b & Hf & Hj & ->) | (b & Hf & Hj & ->)]];
      run_M; rewrite Hf; try reflexivity; cbn [negb]; rewrite Hj; reflexivity.
  - intros req idea style ins e Hp Hne Hsel Hins Hine Hstyle Hu.
    rewrite (refine_slide_body req idea style ins Hp Hne Hsel Hins Hine Hstyle).
    unfold run_handler, describe_and_draw, mbind, M_bind.
    rewrite (describe_unreadable _ _ _ _ e [] Hu). reflexivity.
  - intros req idea style ins d e Hp Hne Hsel Hins Hine Hstyle Hd Hu.
    rewrite (refine_slide_body req idea style ins Hp Hne Hsel Hins Hine Hstyle).
    unfold run_handler.
    rewrite (describe_and_draw_step _ _ _ _ _ _ d _ Hd (summary_of_display d idea _)).
    rewrite (draw_unreadable _ _ _ e _ Hu). reflexivity.
  - intros order req p k concept e Hperm Ht Hp Hk Hu.
    destruct (generate_options_run order req p Hperm Ht Hp)
      as [(o0 & o1 & o2 & Hos & _) | (j & e' & _ & Hrun)].
    + pose proof (option_outcomes_lookup p k concept Hk) as Hout.
      rewrite (option_outcome_unreadable p k concept e Hu), Hos in Hout.
      destruct k as [|[|[|k]]]; cbn in Hout; discriminate.
    + eauto.
Qed.

(** *** Candidate texts that are missing or are not texts *)

(** X9. When the text model answers without a candidate text (or with an
    empty one), /generate-final and /refine-slide go on with the idea in its
    place: the image prompt embeds the idea itself. /get-refine-options then
    answers with three copies of the filler suggestion. *)
Theorem idea_replaces_missing_text :
  (forall req idea style t,
      prompt req = JStr idea -> idea <> [] -> selectedOption req <> JUndefined ->
      style_of req style ->
      text_answer (GenerateContent (final_text_prompt idea style)) t ->
      truthy t = false ->
      exists r,
        generate_final req
        = ([GenerateContent (final_text_prompt idea style);
            Predict (final_image_prompt idea)], r))
  /\ (forall req idea style ins t,
      prompt req = JStr idea -> idea <> [] -> selectedOption req <> JUndefined ->
      refinementInstruction req = JStr ins -> ins <> [] ->
      style_of req style ->
      text_answer (GenerateContent (refine_text_prompt idea style ins)) t ->
      truthy t = false ->
      exists r,
        refine_slide req
        = ([GenerateContent (refine_text_prompt idea style ins);
            Predict (refine_image_prompt idea)], r))
  /\ (forall req idea t,
      truthy (prompt req) = true -> selectedOption req <> JUndefined ->
      ToString (prompt req) = Val idea ->
      text_answer (GenerateContent (suggestions_prompt idea)) t ->
      truthy t = false ->
      get_refine_options req
      = ([GenerateContent (suggestions_prompt idea)],
         suggestions_response [filler_suggestion; filler_suggestion; filler_suggestion])).
Proof.
  split; [|split].
  - intros req idea style t Hp Hne Hsel Hstyle Ht Hfalsy.
    assert (Hd : described req (final_text_prompt idea style) idea).
    { exists t. split; [exact Ht|]. unfold js_or. rewrite Hfalsy, Hp. reflexivity. }
    rewrite (generate_final_body req idea style Hp Hne Hsel Hstyle).
    unfold run_handler.
    rewrite (describe_and_draw_step _ _ _ _ _ _ idea _ Hd (summary_of_display idea idea _)).
    match goal with
    | |- context [draw ?p ?cd ?ex ?tr] =>
        pose proof (draw_trace p cd ex tr) as Htr; destruct (draw p cd ex tr) as [[r|e] tr']
    end; cbn [snd] in Htr; subst tr'; eauto.
  - intros req idea style ins t Hp Hne Hsel Hins Hine Hstyle Ht Hfalsy.
    assert (Hd : described req (refine_text_prompt idea style ins) idea).
    { exists t. split; [exact Ht|]. unfold js_or. rewrite Hfalsy, Hp. reflexivity. }
    rewrite (refine_slide_body req idea style ins Hp Hne Hsel Hins Hine Hstyle).
    unfold run_handler.
    rewrite (describe_and_draw_step _ _ _ _ _ _ idea _ Hd (summary_of_display idea idea _)).
    match goal with
    | |- context [draw ?p ?cd ?ex ?tr] =>
        pose proof (draw_trace p cd ex tr) as Htr; destruct (draw p cd ex tr) as [[r|e] tr']
    end; cbn [snd] in Htr; subst tr'; eauto.
  - intros req idea t Ht Hsel Hi Hans Hfalsy.
    rewrite (get_refine_options_run req idea t [] Ht Hsel Hi Hans); [reflexivity|].
    unfold js_or. rewrite Hfalsy. reflexivity.
Qed.


(** *** The slug: hyphens, letters and digits *)

Lemma is_slug_char_not_hyphen c : is_slug_char c = true -> is_hyphen c = false.
Proof.
  intros H. unfold is_hyphen. destruct (N.eqb_spec c HYPHEN) as [-> | _]; [|reflexivity].
  vm_compute in H. discriminate H.
Qed.


Lemma replace_non_alnum_true_head s : head (replace_non_alnum true s) <> Some HYPHEN.
Proof.
  induction s as [|c r IH]; [discriminate|].
  cbn [replace_non_alnum]. destruct (is_slug_char c) eqn:Hc; [|exact IH].
  cbn [head]. intros E. inversion E; subst. vm_compute in Hc. discriminate Hc.
Qed.

Lemma no_hyphen_pair_cons c s :
  no_hyphen_pair (c :: s)
  = match s with
    | d :: _ => negb (is_hyphen c && is_hyphen d)
    | [] => true
    end && no_hyphen_pair s.
Proof. reflexivity. Qed.

Lemma replace_non_alnum_no_pair b s : no_hyphen_pair (replace_non_alnum b s) = true.
Proof.
  revert b. induction s as [|c r IH]; intros b; [reflexivity|].
  cbn [replace_non_alnum]. destruct (is_slug_char c) eqn:Hc.
  - rewrite no_hyphen_pair_cons, IH, (is_slug_char_not_hyphen c Hc).
    destruct (replace_non_alnum false r); reflexivity.
  - destruct b; [apply IH|].
    rewrite no_hyphen_pair_cons, IH.
    pose proof (replace_non_alnum_true_head r) as Hh.
    destruct (replace_non_alnum true r) as [|d t]; [reflexivity|].
    destruct (is_hyphen d) eqn:Hd; [|rewrite andb_false_r; reflexivity].
    exfalso. apply Hh. cbn [head]. f_equal. apply N.eqb_eq. exact Hd.
Qed.

Lemma no_hyphen_pair_app_r a b : no_hyphen_pair (a ++ b) = true -> no_hyphen_pair b = true.
Proof.
  induction a as [|c a IH]; [trivial|].
  cbn [app]. rewrite no_hyphen_pair_cons. intros H. apply andb_true_iff in H. apply IH, H.
Qed.

Lemma no_hyphen_pair_app_l a b : no_hyphen_pair (a ++ b) = true -> no_hyphen_pair a = true.
Proof.
  induction a as [|c a IH]; [reflexivity|].
  cbn [app]. rewrite !no_hyphen_pair_cons. intros H. apply andb_true_iff in H as [H1 H2].
  rewrite (IH H2), andb_true_r. destruct a as [|d a]; [reflexivity | exact H1].
Qed.

Lemma drop_while_suffix (p : N -> bool) (s : jsstring) : exists a, s = a ++ drop_while p s.
Proof.
  induction s as [|c r (a & IH)]; [exists []; reflexivity|].
  cbn [drop_while]. destruct (p c); [|exists []; reflexivity].
  exists (c :: a). cbn [app]. f_equal. exact IH.
Qed.

Lemma strip_hyphens_to_end_prefix (s : jsstring) : exists b, s = strip_hyphens_to_end s ++ b.
Proof.
  rewrite strip_hyphens_to_end_rev.
  destruct (drop_while_suffix is_hyphen (rev s)) as (a & Ha).
  exists (rev a). rewrite <- rev_app_distr, <- Ha, rev_involutive. reflexivity.
Qed.

Lemma strip_hyphens_to_end_last (s : jsstring) : last (strip_hyphens_to_end s) <> Some HYPHEN.
Proof.
  rewrite strip_hyphens_to_end_rev.
  pose proof (drop_while_head is_hyphen (rev s)) as Hh.
  destruct (drop_while is_hyphen (rev s)) as [|c t]; [discriminate|].
  cbn [rev]. rewrite last_snoc. intros E. inversion E; subst.
  specialize (Hh HYPHEN eq_refl). discriminate Hh.
Qed.

(** X11. In the slug that /upload builds no two hyphens follow each other,
    and it ends in a hyphen only when it was cut at 50 code units. *)
Theorem slug_hyphens (idea : jsstring) :
  no_hyphen_pair (sanitizedPrompt idea) = true
  /\ (length (sanitizedPrompt idea) < 50 -> last (sanitizedPrompt idea) <> Some HYPHEN).
Proof.
  unfold sanitizedPrompt, substring0, replace_edge_hyphens.
  set (x := replace_non_alnum false (toLowerCase idea)).
  set (z := strip_hyphens_to_end (drop_while is_hyphen x)).
  split.
  - apply (no_hyphen_pair_app_l _ (drop 50 z)). rewrite take_drop.
    destruct (strip_hyphens_to_end_prefix (drop_while is_hyphen x)) as (b & Hb).
    apply (no_hyphen_pair_app_l _ b). fold z in Hb. rewrite <- Hb.
    destruct (drop_while_suffix is_hyphen x) as (a & Ha).
    apply (no_hyphen_pair_app_r a). rewrite <- Ha.
    apply replace_non_alnum_no_pair.
  - intros Hlen. rewrite length_take in Hlen.
    rewrite take_ge by lia. apply strip_hyphens_to_end_last.
Qed.









(** *** The data URI of an uploaded image *)

Lemma while_app_stop (p : N -> bool) (w : jsstring) (c : N) (t : jsstring) :
  forallb p w = true -> p c = false ->
  take_while p (w ++ c :: t) = w /\ drop_while p (w ++ c :: t) = c :: t.
Proof.
  intros Hw Hc. induction w as [|x w IH].
  - cbn [app take_while drop_while]. rewrite Hc. split; reflexivity.
  - cbn [forallb] in Hw. apply andb_true_iff in Hw as [Hx Hw].
    cbn [app take_while drop_while]. rewrite Hx.
    destruct (IH Hw) as [-> ->]. split; reflexivity.
Qed.

Lemma strip_data_uri_prefixed (w rest : jsstring) :
  w <> [] -> forallb is_word_char w = true ->
  strip_data_uri (lit "data:image/" ++ w ++ lit ";base64," ++ rest) = rest.
Proof.
  intros Hne Hw. unfold strip_data_uri. rewrite strip_prefix_of_app.
  change (lit ";base64," ++ rest) with (ch ";" :: lit "base64," ++ rest).
  destruct (while_app_stop is_word_char w (ch ";") (lit "base64," ++ rest) Hw eq_refl)
    as [-> ->].
  destruct w as [|x w]; [contradiction|].
  change (ch ";" :: lit "base64," ++ rest) with (lit ";base64," ++ rest).
  rewrite strip_prefix_of_app. reflexivity.
Qed.

(** X13. /upload removes one leading [data:image/<type>;base64,] from the
    image text and nothing else: a text that does not start with
    [data:image/] is stored as it is, and the [image] member of a slide
    answer, given back to /upload, is stored as the base64 text it was made
    from. *)
Theorem data_uri_stripped :
  (forall w rest, w <> [] -> forallb is_word_char w = true ->
      strip_data_uri (lit "data:image/" ++ w ++ lit ";base64," ++ rest) = rest)
  /\ (forall s, strip_prefix (lit "data:image/") s = None -> strip_data_uri s = s)
  /\ (forall b64, strip_data_uri (data_uri b64) = b64)
  /\ (forall req idea b64,
      prompt req = JStr idea -> imageBase64 req = JStr (data_uri b64) ->
      exists r,
        upload req
        = ([PutObject (object_key (sanitizedPrompt idea) (Number_toString now 0))
                      (Number_toString now 0 ++ lit ".png") b64], r)).
Proof.
  assert (Hround : forall b64, strip_data_uri (data_uri b64) = b64).
  { intros b64.
    change (data_uri b64) with (lit "data:image/" ++ lit "png" ++ lit ";base64," ++ b64).
    apply strip_data_uri_prefixed; [discriminate | reflexivity]. }
  split; [|split; [|split]].
  - exact strip_data_uri_prefixed.
  - intros s H. unfold strip_data_uri. rewrite H. reflexivity.
  - exact Hround.
  - intros req idea b64 Hp Hi.
    destruct (upload_call req idea (data_uri b64) Hp Hi) as (r & Hr); [discriminate|].
    exists r. rewrite Hr, Hround. reflexivity.
Qed.

(** *** What /upload answers to a stored object *)

Lemma upload_run req idea img :
  prompt req = JStr idea -> imageBase64 req = JStr img -> img <> [] ->
  upload req
  = ([PutObject (object_key (sanitizedPrompt idea) (Number_toString now 0))
                (Number_toString now 0 ++ lit ".png") (strip_data_uri img)],
     match axios_put (PutObject (object_key (sanitizedPrompt idea) (Number_toString now 0))
                                (Number_toString now 0 ++ lit ".png") (strip_data_uri img)) with
     | AxiosNoResponse =>
         json_status 500 [ (lit "error", JStr (lit "Upload to InsForge failed"));
                           (lit "details", JStr (axios_message None)) ]
     | AxiosResp st rdata =>
         if Z.leb 200 st && Z.ltb st 300 then
           match upload_answer (object_key (sanitizedPrompt idea) (Number_toString now 0))
                   rdata with
           | Val r => r
           | Throw e =>
               json_status 500 [ (lit "error", JStr (lit "Upload to InsForge failed"));
                                 (lit "details", error_details e) ]
           end
         else
           json_status 500
             [ (lit "error", JStr (lit "Upload to InsForge failed"));
               (lit "details", js_or rdata (JStr (axios_message (Some (st, rdata))))) ]
     end).
Proof.
  intros Hp Hi Hne. unfold upload, upload_body. rewrite Hp, Hi.
  destruct img as [|x img]; [contradiction|]. cbn [truthy negb as_string].
  run_M. destruct (axios_put _) as [st rdata|]; [|reflexivity].
  destruct (Z.leb 200 st && Z.ltb st 300); [|reflexivity].
  destruct (upload_answer _ rdata); reflexivity.
Qed.

(** X14. On a 2xx answer of the storage, /upload reads [key], [url],
    [bucket] and [uploadedAt] from the member [data] of the answer when
    that member is an object, and from the answer itself when it has no
    such member (or a falsy one); [fileName] is always the object key the
    server built. The answer is not checked: an empty body still gives a
    success, with every field read undefined, and the body [null] gives
    status 500. When the storage cannot be reached the answer is 500 with
    the message of axios as [details]. *)
Theorem upload_answers :
  forall req idea img,
    prompt req = JStr idea -> imageBase64 req = JStr img -> img <> [] ->
    let objectKey := object_key (sanitizedPrompt idea) (Number_toString now 0) in
    let call := PutObject objectKey (Number_toString now 0 ++ lit ".png")
                  (strip_data_uri img) in
    (forall st rdata,
        axios_put call = AxiosResp st rdata -> (200 <= st < 300)%Z ->
        (forall ms ims,
            rdata = JObj ms -> last_member (lit "data") ms = Some (JObj ims) ->
            upload req = ([call], upload_fields objectKey ims))
        /\ (forall ms,
            rdata = JObj ms -> truthy (or_undefined (last_member (lit "data") ms)) = false ->
            upload req = ([call], upload_fields objectKey ms))
        /\ (rdata = JStr [] -> upload req = ([call], upload_fields objectKey []))
        /\ (rdata = JNull ->
            upload req
            = ([call],
               json_status 500
                 [ (lit "error", JStr (lit "Upload to InsForge failed"));
                   (lit "details",
                    JStr (engine_message (TypeError_nullish_property (lit "data")))) ])))
    /\ (axios_put call = AxiosNoResponse ->
        upload req
        = ([call],
           json_status 500 [ (lit "error", JStr (lit "Upload to InsForge failed"));
                             (lit "details", JStr (axios_message None)) ])).
Proof.
  intros req idea img Hp Hi Hne objectKey call.
  pose proof (upload_run req idea img Hp Hi Hne) as Hrun.
  fold objectKey in Hrun. fold call in Hrun.
  split.
  - intros st rdata Hput Hst. rewrite Hput in Hrun.
    replace (Z.leb 200 st && Z.ltb st 300) with true in Hrun
      by (symmetry; apply andb_true_iff; split; [apply Z.leb_le | apply Z.ltb_lt]; lia).
    repeat split.
    + intros ms ims -> Hm. rewrite Hrun. unfold upload_answer. cbn [get_prop].
      rewrite Hm. reflexivity.
    + intros ms -> Hm. rewrite Hrun. unfold upload_answer. cbn [get_prop].
      unfold mbind at 1. unfold Result_bind at 1. unfold js_or. rewrite Hm. reflexivity.
    + intros ->. rewrite Hrun. reflexivity.
    + intros ->. rewrite Hrun. unfold upload_answer. cbn [get_prop].
      unfold mbind, Result_bind, error_details, js_or. cbn [truthy message_of]. reflexivity.
  - intros Hput. rewrite Hput in Hrun. exact Hrun.
Qed.

(** *** One failing call among the three options *)

(** X15. When exactly one of the three image calls of /generate-options is
    answered with a failure status and the two others give an entry, the
    answer is status 500 with the message [Option <k+1> generation failed]
    of that style, in whatever order the three calls complete. *)
Theorem single_failure_names_option order req p k concept b :
  Permutation order [0; 1; 2] ->
  truthy (prompt req) = true -> ToString (prompt req) = Val p ->
  concepts !! k = Some concept ->
  fails_with (Predict (sketch_prompt p concept)) b ->
  (forall i ci, i <> k -> concepts !! i = Some ci ->
                exists o, option_outcome i ci p = Val o) ->
  generate_options order req
  = Some (option_calls p, json_status 500 [(lit "error", JStr (option_failed k))]).
Proof.
  intros Hperm Ht Hp Hk Hfail Hothers.
  pose proof (option_outcomes_lookup p k concept Hk) as Hout.
  rewrite (option_outcome_fails p k concept b Hfail) in Hout.
  destruct (generate_options_run order req p Hperm Ht Hp)
    as [(o0 & o1 & o2 & Hos & _) | (j & e & Hfirst & Hrun)].
  - rewrite Hos in Hout. destruct k as [|[|[|k]]]; cbn in Hout; discriminate.
  - rewrite Hrun. destruct Hfirst as (_ & _ & _ & Hj & _).
    destruct (Nat.eq_dec j k) as [-> | Hne].
    + rewrite Hout in Hj. inversion Hj. reflexivity.
    + exfalso.
      assert (Hcj : exists cj, concepts !! j = Some cj).
      { destruct j as [|[|[|j]]]; [eexists; reflexivity ..|].
        unfold option_outcomes, concepts in Hj. cbn in Hj. discriminate Hj. }
      destruct Hcj as (cj & Hcj).
      destruct (Hothers j cj Hne Hcj) as (o & Ho).
      rewrite (option_outcomes_lookup p j cj Hcj), Ho in Hj. discriminate Hj.
Qed.

(** *** Start of the server *)

Lemma truthy_env_value (env : Env) (name : string) :
  truthy (env_value env name) = true <-> is_set env name.
Proof.
  unfold env_value, is_set. destruct (env name) as [s|].
  - destruct s as [|c s]; cbn [truthy]; split.
    + discriminate.
    + intros (s' & Hs & Hne). inversion Hs; subst. contradiction.
    + intros _. eexists. split; [reflexivity | discriminate].
    + reflexivity.
  - cbn [truthy]. split; [discriminate|]. intros (s & Hs & _). discriminate Hs.
Qed.

Lemma truthy_js_or (a b : JsVal) : truthy (js_or a b) = truthy a || truthy b.
Proof. unfold js_or. destruct (truthy a) eqn:E; [exact E | reflexivity]. Qed.

(** X16. The server starts to listen exactly when one of the two names of
    the Google key and one of the two names of the storage key are set to a
    text that is not empty; otherwise the process exits with code 1, with
    the message about the Google key when that one is missing. A first name
    that is set takes precedence over the second, one that is set to the
    empty text counts as not set, and the port is 5000 when [PORT] is not
    set or empty. *)
Theorem startup_needs_both_keys (env : Env) :
  (startup env = Listening (PORT env)
   <-> (is_set env "GEMINI_API_KEY" \/ is_set env "GOOGLE_GENAI_API_KEY")
       /\ (is_set env "INSFORGE_STORAGE_KEY" \/ is_set env "INSFORGE_API_KEY"))
  /\ (~ (is_set env "GEMINI_API_KEY" \/ is_set env "GOOGLE_GENAI_API_KEY") ->
      startup env
      = Exited 1 (lit "ERROR: GEMINI_API_KEY or GOOGLE_GENAI_API_KEY environment variable is not set"))
  /\ ((is_set env "GEMINI_API_KEY" \/ is_set env "GOOGLE_GENAI_API_KEY") ->
      ~ (is_set env "INSFORGE_STORAGE_KEY" \/ is_set env "INSFORGE_API_KEY") ->
      startup env
      = Exited 1 (lit "ERROR: INSFORGE_STORAGE_KEY or INSFORGE_API_KEY environment variable is not set"))
  /\ (forall k, env "GEMINI_API_KEY"%string = Some k -> k <> [] -> GOOGLE_API_KEY env = JStr k)
  /\ (~ is_set env "GEMINI_API_KEY" ->
      GOOGLE_API_KEY env = env_value env "GOOGLE_GENAI_API_KEY")
  /\ (forall k, env "INSFORGE_STORAGE_KEY"%string = Some k -> k <> [] -> INSFORGE_API_KEY env = JStr k)
  /\ (~ is_set env "INSFORGE_STORAGE_KEY" ->
      INSFORGE_API_KEY env = env_value env "INSFORGE_API_KEY")
  /\ (~ is_set env "PORT" -> PORT env = int_num 5000)
  /\ (forall s, env "PORT"%string = Some s -> s <> [] -> PORT env = JStr s).
Proof.
  pose proof (truthy_env_value env "GEMINI_API_KEY") as Hg1.
  pose proof (truthy_env_value env "GOOGLE_GENAI_API_KEY") as Hg2.
  pose proof (truthy_env_value env "INSFORGE_STORAGE_KEY") as Hi1.
  pose proof (truthy_env_value env "INSFORGE_API_KEY") as Hi2.
  pose proof (truthy_env_value env "PORT") as Hport.
  assert (Hg : truthy (GOOGLE_API_KEY env) = true
               <-> is_set env "GEMINI_API_KEY" \/ is_set env "GOOGLE_GENAI_API_KEY").
  { unfold GOOGLE_API_KEY. rewrite truthy_js_or, orb_true_iff, Hg1, Hg2. reflexivity. }
  assert (Hi : truthy (INSFORGE_API_KEY env) = true
               <-> is_set env "INSFORGE_STORAGE_KEY" \/ is_set env "INSFORGE_API_KEY").
  { unfold INSFORGE_API_KEY. rewrite truthy_js_or, orb_true_iff, Hi1, Hi2. reflexivity. }
  assert (Hor : forall name (d : JsVal),
             ~ is_set env name -> js_or (env_value env name) d = d).
  { intros name d Hn. unfold js_or.
    destruct (truthy (env_value env name)) eqn:E; [|reflexivity].
    exfalso. apply Hn. apply truthy_env_value. exact E. }
  assert (Hfirst : forall name (d : JsVal) k,
             env name = Some k -> k <> [] -> js_or (env_value env name) d = JStr k).
  { intros name d k Hk Hne. unfold js_or, env_value. rewrite Hk.
    destruct k; [contradiction | reflexivity]. }
  split; [split|split; [|split; [|split; [|split; [|split; [|split; [|split]]]]]]].
  - unfold startup. intros H.
    destruct (truthy (GOOGLE_API_KEY env)) eqn:Eg; [|discriminate H].
    destruct (truthy (INSFORGE_API_KEY env)) eqn:Ei; [|discriminate H].
    split; [apply Hg | apply Hi]; reflexivity.
  - intros [H1 H2]. unfold startup.
    rewrite (proj2 Hg H1), (proj2 Hi H2). reflexivity.
  - intros Hn. unfold startup.
    destruct (truthy (GOOGLE_API_KEY env)) eqn:E; [|reflexivity].
    exfalso. apply Hn, Hg. reflexivity.
  - intros H1 Hn. unfold startup. rewrite (proj2 Hg H1). cbn [negb].
    destruct (truthy (INSFORGE_API_KEY env)) eqn:E; [|reflexivity].
    exfalso. apply Hn, Hi. reflexivity.
  - intros k Hk Hne. apply Hfirst; assumption.
  - intros Hn. apply Hor, Hn.
  - intros k Hk Hne. apply Hfirst; assumption.
  - intros Hn. apply Hor, Hn.
  - intros Hn. apply Hor, Hn.
  - intros s Hs Hne. apply Hfirst; assumption.
Qed.

(** *** Status 400 *)



Lemma guard_false_iff (a b : bool) : a || b = false <-> a = false /\ b = false.
Proof. destruct a, b; cbn; split; try tauto; intros [? ?]; discriminate. Qed.



End Server.
Lemma no_image_generated_500_witness :
  generate_final Sample.fetch_no_predictions Sample.engine_text Sample.axios_text
    Sample.numeric_positive Sample.inherited Sample.request
  = ([GenerateContent (final_text_prompt Sample.idea Sample.style);
      Predict (final_image_prompt (lit "A bold slide."))],
     json_status 500 [(lit "error", JStr (lit "No image generated"))])
  /\ refine_slide Sample.fetch_no_predictions Sample.engine_text Sample.axios_text
       Sample.numeric_positive Sample.inherited Sample.request
     = ([GenerateContent (refine_text_prompt Sample.idea Sample.style
                            (lit "Add customer testimonials and social proof"));
         Predict (refine_image_prompt (lit "A bold slide."))],
        json_status 500 [(lit "error", JStr (lit "No image generated"))]).
Proof.
  split.
  - apply (proj1 (no_image_generated_500 Sample.fetch_no_predictions Sample.engine_text
                    Sample.axios_text Sample.numeric_positive Sample.inherited))
      with (imageData := JObj [(lit "predictions", JArr [])]).
    + reflexivity.
    + discriminate.
    + discriminate.
    + eexists; split; reflexivity.
    + eexists; split; [eexists; eexists; repeat split; vm_compute; reflexivity | reflexivity].
    + eexists; split; vm_compute; reflexivity.
    + eexists; split; [reflexivity | right; reflexivity].
  - apply (proj2 (no_image_generated_500 Sample.fetch_no_predictions Sample.engine_text
                    Sample.axios_text Sample.numeric_positive Sample.inherited))
      with (imageData := JObj [(lit "predictions", JArr [])]).
    + reflexivity.
    + discriminate.
    + discriminate.
    + reflexivity.
    + discriminate.
    + eexists; split; reflexivity.
    + eexists; split; [eexists; eexists; repeat split; vm_compute; reflexivity | reflexivity].
    + eexists; split; vm_compute; reflexivity.
    + eexists; split; [reflexivity | right; reflexivity].
Defined.
Lemma missing_field_responses_witness :
  upload (fun _ => AxiosNoResponse) 1762000000000 Sample.lower_ascii
    Sample.engine_text Sample.axios_text Sample.request_without_prompt
  = ([], json_status 500
           [ (lit "error", JStr (lit "Upload to InsForge failed"));
             (lit "details",
              JStr (Sample.engine_text (TypeError_nullish_property (lit "toLowerCase")))) ]).
Proof.
  apply (proj2 (proj2 (proj2 (proj2 (proj2
           (missing_field_responses (fun _ => NetFail) (fun _ => AxiosNoResponse)
              1762000000000 Sample.lower_ascii Sample.engine_text Sample.axios_text
              Sample.numeric_positive Sample.inherited))))))
    with (img := lit "data:image/png;base64,QUJD").
  - reflexivity.
  - discriminate.
  - reflexivity.
Defined.
Lemma three_suggestions_witness :
  exists parsed l,
    parse_suggestions (js_or (JStr Sample.two_suggestions_text) (JStr [])) = JArr parsed
    /\ l = take 3 (parsed ++ replicate 3 filler_suggestion)
    /\ get_refine_options Sample.fetch_two_suggestions Sample.engine_text Sample.axios_text
         Sample.request
       = ([GenerateContent (suggestions_prompt Sample.idea)], suggestions_response l)
    /\ length l = 3
    /\ (Forall is_string (take 3 parsed) -> Forall is_string l).
Proof.
  apply (three_suggestions Sample.fetch_two_suggestions Sample.engine_text Sample.axios_text
           Sample.request Sample.idea (JStr Sample.two_suggestions_text)).
  - reflexivity.
  - discriminate.
  - reflexivity.
  - eexists; eexists; repeat split; vm_compute; reflexivity.
Defined.

(** The model answers with three objects [{"tip": ...}]: the three
    suggestions of the answer are these objects, not strings. *)
Lemma three_suggestion_strings_counterexample :
  field (snd (get_refine_options Sample.fetch_objects Sample.engine_text Sample.axios_text
                Sample.request)) (lit "suggestions")
  = Some (JArr [ JObj [(lit "tip", JStr (lit "Use charts"))];
                 JObj [(lit "tip", JStr (lit "Add logos"))];
                 JObj [(lit "tip", JStr (lit "Show traction"))] ])
  /\ ~ three_suggestion_strings
         (snd (get_refine_options Sample.fetch_objects Sample.engine_text Sample.axios_text
                 Sample.request)).
Proof.
  assert (E : field (snd (get_refine_options Sample.fetch_objects Sample.engine_text
                            Sample.axios_text Sample.request)) (lit "suggestions")
              = Some (JArr [ JObj [(lit "tip", JStr (lit "Use charts"))];
                             JObj [(lit "tip", JStr (lit "Add logos"))];
                             JObj [(lit "tip", JStr (lit "Show traction"))] ]))
    by (vm_compute; reflexivity).
  split; [exact E|].
  intros (a & b & c & H). rewrite E in H. discriminate H.
Qed.

Lemma no_bracket_no_span (text : jsstring) :
  ~ In (ch "[") text -> forall a b c, text <> a ++ ch "[" :: b ++ ch "]" :: c.
Proof.
  intros Hn a b c ->. apply Hn. apply in_or_app. right. left. reflexivity.
Qed.

Lemma suggestions_from_text_witness :
  get_refine_options Sample.fetch_two_suggestions Sample.engine_text Sample.axios_text
    Sample.request
  = ([GenerateContent (suggestions_prompt Sample.idea)],
     suggestions_response [ JStr (lit "Use charts"); JStr (lit "Add logos"); filler_suggestion ])
  /\ get_refine_options Sample.fetch_no_suggestions Sample.engine_text Sample.axios_text
       Sample.request
     = ([GenerateContent (suggestions_prompt Sample.idea)],
        suggestions_response [filler_suggestion; filler_suggestion; filler_suggestion]).
Proof.
  split.
  - assert (P : JSON_parse (ch "[" :: Sample.json_text "'Use charts', 'Add logos'" ++ [ch "]"])
                = Some (JArr [JStr (lit "Use charts"); JStr (lit "Add logos")]))
      by (vm_compute; reflexivity).
    pose proof (proj1 (suggestions_from_text Sample.fetch_two_suggestions Sample.engine_text
                         Sample.axios_text Sample.request Sample.idea
                         Sample.two_suggestions_text eq_refl
                         ltac:(discriminate) eq_refl
                         ltac:(eexists; eexists; repeat split; vm_compute; reflexivity))
                  (lit "Here you go: ") (Sample.json_text "'Use charts', 'Add logos'")
                  (lit " Enjoy.") eq_refl) as H.
    rewrite P in H.
    destruct H as (parsed & Hv & Heq).
    + vm_compute. intuition discriminate.
    + vm_compute. intuition discriminate.
    + inversion Hv; subst parsed. exact Heq.
  - apply (proj2 (suggestions_from_text Sample.fetch_no_suggestions Sample.engine_text
                    Sample.axios_text Sample.request Sample.idea
                    Sample.no_suggestions_text eq_refl
                    ltac:(discriminate) eq_refl
                    ltac:(eexists; eexists; repeat split; vm_compute; reflexivity))).
    apply no_bracket_no_span. vm_compute. intuition discriminate.
Defined.

(** The model answers without any bracketed text: the suggestions are three
    times the filler, not the three fallback suggestions. *)
Lemma fallback_on_missing_text_counterexample :
  match_bracket_span Sample.no_suggestions_text = None
  /\ field (snd (get_refine_options Sample.fetch_no_suggestions Sample.engine_text
                   Sample.axios_text Sample.request)) (lit "suggestions")
     = Some (JArr [filler_suggestion; filler_suggestion; filler_suggestion])
  /\ field (snd (get_refine_options Sample.fetch_no_suggestions Sample.engine_text
                   Sample.axios_text Sample.request)) (lit "suggestions")
     <> Some (JArr fallback_suggestions).
Proof.
  assert (E : field (snd (get_refine_options Sample.fetch_no_suggestions Sample.engine_text
                            Sample.axios_text Sample.request)) (lit "suggestions")
              = Some (JArr [filler_suggestion; filler_suggestion; filler_suggestion]))
    by (vm_compute; reflexivity).
  split; [vm_compute; reflexivity|]. split; [exact E|].
  rewrite E. vm_compute. discriminate.
Qed.

Lemma object_key_slug_witness :
  (exists r,
      upload (fun _ => AxiosResp 200 (JObj [(lit "key", JStr (lit "k1"))])) 1762000000000
        Sample.lower_ascii Sample.engine_text Sample.axios_text Sample.request
      = ([PutObject (lit "slides/a-flying-car-service/1762000000000.png")
                    (lit "1762000000000.png") (lit "QUJD")], r))
  /\ slug_of (Sample.lower_ascii car_idea) = lit "a-flying-car-service".
Proof.
  pose proof (object_key_slug (fun _ => AxiosResp 200 (JObj [(lit "key", JStr (lit "k1"))]))
                1762000000000 Sample.lower_ascii Sample.engine_text Sample.axios_text)
    as (H1 & _ & H3).
  split.
  - destruct (H1 Sample.request Sample.idea (lit "data:image/png;base64,QUJD"))
      as (r & Hr); [reflexivity | reflexivity | discriminate |].
    exists r. rewrite Hr. vm_compute. reflexivity.
  - apply H3. vm_compute. reflexivity.
Defined.
Lemma options_in_style_order_witness :
  generate_options Sample.fetch_slide Sample.engine_text Sample.axios_text [2; 0; 1]
    Sample.request
  = Some (option_calls Sample.idea,
          json_ok [ (lit "success", JBool true);
                    (lit "options",
                     JArr [ Sample.option_entry_of 0 (lit "minimalist with bold typography");
                            Sample.option_entry_of 1 (lit "with data visualization focus");
                            Sample.option_entry_of 2 (lit "with icon-heavy design") ]) ])
  /\ generate_options Sample.fetch_slide Sample.engine_text Sample.axios_text [1; 2; 0]
       Sample.request
     = generate_options Sample.fetch_slide Sample.engine_text Sample.axios_text [2; 0; 1]
         Sample.request.
Proof.
  assert (Hperm : Permutation [2; 0; 1] [0; 1; 2]).
  { eapply perm_trans; [apply perm_swap | apply perm_skip, perm_swap]. }
  assert (Hperm' : Permutation [1; 2; 0] [0; 1; 2]).
  { eapply perm_trans; [apply perm_skip, perm_swap | apply perm_swap]. }
  assert (Hrun : generate_options Sample.fetch_slide Sample.engine_text Sample.axios_text
                   [2; 0; 1] Sample.request
                 = Some (option_calls Sample.idea,
                         json_ok [ (lit "success", JBool true);
                                   (lit "options",
                                    JArr [ Sample.option_entry_of 0 (lit "minimalist with bold typography");
                                           Sample.option_entry_of 1 (lit "with data visualization focus");
                                           Sample.option_entry_of 2 (lit "with icon-heavy design") ]) ]))
    by (vm_compute; reflexivity).
  split; [exact Hrun|].
  destruct (proj2 (options_in_style_order Sample.fetch_slide Sample.engine_text
                     Sample.axios_text [2; 0; 1] Sample.request Hperm) _ _ Hrun eq_refl)
    as (p & o0 & o1 & o2 & _ & _ & _ & _ & _ & _ & Hany).
  rewrite Hrun. exact (Hany [1; 2; 0] Hperm').
Defined.

Lemma sample_order : Permutation [2; 0; 1] [0; 1; 2].
Proof. eapply perm_trans; [apply perm_swap | apply perm_skip, perm_swap]. Defined.

Lemma upstream_calls_made_witness :
  exists tr r,
    generate_options Sample.fetch_second_option_fails Sample.engine_text Sample.axios_text
      [2; 0; 1] Sample.request = Some (tr, r)
    /\ (tr = [] \/ exists p, tr = map (fun c => Predict (sketch_prompt p c)) concepts).
Proof.
  exact (proj1 (proj2 (proj2 (proj2
           (upstream_calls_made Sample.fetch_second_option_fails (fun _ => AxiosNoResponse)
              0 Sample.lower_ascii Sample.engine_text Sample.axios_text
              Sample.numeric_positive Sample.inherited))))
           [2; 0; 1] Sample.request sample_order).
Defined.


Lemma success_follows_both_calls_witness :
  exists idea style d,
    ToString (prompt Sample.request) = Val idea
    /\ style_of Sample.inherited Sample.request style
    /\ described Sample.fetch_slide Sample.request (final_text_prompt idea style) d
    /\ fst (generate_final Sample.fetch_slide Sample.engine_text Sample.axios_text
              Sample.numeric_positive Sample.inherited Sample.request)
       = [ GenerateContent (final_text_prompt idea style);
           Predict (lit "Ultra high-end professional business pitch slide: " ++ d
                    ++ lit ". Stunning visual design, investor-ready quality, crisp typography, perfect color harmony, print-quality resolution, modern aesthetic, Appropriate for Silicon Valley VC presentations.") ].
Proof.
  apply (proj1 (success_follows_both_calls Sample.fetch_slide Sample.engine_text
                  Sample.axios_text Sample.numeric_positive Sample.inherited)).
  vm_compute. reflexivity.
Defined.


Lemma style_selected_by_index_witness :
  (exists rest r,
      generate_final Sample.fetch_slide Sample.engine_text Sample.axios_text
        Sample.numeric_positive Sample.inherited Sample.request_string_one
      = (GenerateContent (final_text_prompt Sample.idea Sample.style) :: rest, r))
  /\ (forall ins,
      refinementInstruction Sample.request_string_one = JStr ins -> ins <> [] ->
      exists rest r,
        refine_slide Sample.fetch_slide Sample.engine_text Sample.axios_text
          Sample.numeric_positive Sample.inherited Sample.request_string_one
        = (GenerateContent (refine_text_prompt Sample.idea Sample.style ins) :: rest, r)).
Proof.
  apply (style_selected_by_index Sample.fetch_slide Sample.engine_text Sample.axios_text
           Sample.numeric_positive Sample.inherited Sample.request_string_one Sample.idea 1
           Sample.style).
  - reflexivity.
  - discriminate.
  - reflexivity.
  - right. left. reflexivity.
Defined.

Lemma options_without_image_witness :
  generate_options Sample.fetch_no_predictions Sample.engine_text Sample.axios_text
    [2; 0; 1] Sample.request
  = Some (option_calls Sample.idea,
          json_ok [ (lit "success", JBool true);
                    (lit "options", JArr (imap blank_option concepts)) ]).
Proof.
  apply (options_without_image Sample.fetch_no_predictions Sample.engine_text
           Sample.axios_text [2; 0; 1] Sample.request Sample.idea).
  - exact sample_order.
  - reflexivity.
  - discriminate.
  - intros concept _. exists (Sample.json_text "{'predictions':[]}").
    exists (JObj [(lit "predictions", JArr [])]).
    split; [reflexivity|]. split; [vm_compute; reflexivity|].
    exists (JArr []). split; [reflexivity | right; reflexivity].
Defined.

Lemma first_prediction_only_witness :
  generate_final Sample.fetch_no_bytes Sample.engine_text Sample.axios_text
    Sample.numeric_positive Sample.inherited Sample.request
  = ([GenerateContent (final_text_prompt Sample.idea Sample.style);
      Predict (final_image_prompt (lit "A bold slide."))],
     slide_body JUndefined (lit "undefined")
       (summary_of (lit "A bold slide.") Sample.idea
          (fun p => final_fallback p Sample.style)) []).
Proof.
  destruct (proj1 (first_prediction_only Sample.fetch_no_bytes Sample.engine_text
                     Sample.axios_text Sample.numeric_positive Sample.inherited)
              Sample.request Sample.idea Sample.style (lit "A bold slide.")
              (JObj [(lit "predictions",
                      JArr [JObj [(lit "mimeType", JStr (lit "image/png"))];
                            JObj [(lit "bytesBase64Encoded", JStr (lit "QUJD"))]])])
              (JObj [(lit "mimeType", JStr (lit "image/png"))])
              [JObj [(lit "bytesBase64Encoded", JStr (lit "QUJD"))]])
    as (_ & Hblank & _).
  - reflexivity.
  - discriminate.
  - discriminate.
  - eexists; split; reflexivity.
  - eexists; split; [eexists; eexists; repeat split; vm_compute; reflexivity | reflexivity].
  - eexists; split; vm_compute; reflexivity.
  - vm_compute. reflexivity.
  - apply (Hblank _ eq_refl). vm_compute. reflexivity.
Defined.

Lemma unreadable_answer_500_witness :
  generate_final Sample.fetch_null_text Sample.engine_text Sample.axios_text
    Sample.numeric_positive Sample.inherited Sample.request
  = ([GenerateContent (final_text_prompt Sample.idea Sample.style)],
     json_status 500
       [(lit "error",
         JStr (Sample.engine_text (TypeError_nullish_property (lit "candidates"))))]).
Proof.
  apply (proj1 (unreadable_answer_500 Sample.fetch_null_text Sample.engine_text
                  Sample.axios_text Sample.numeric_positive Sample.inherited)
           Sample.request Sample.idea Sample.style).
  - reflexivity.
  - discriminate.
  - discriminate.
  - eexists; split; reflexivity.
  - right. right. exists (lit "null"). repeat split.
Defined.

Lemma idea_replaces_missing_text_witness :
  exists r,
    generate_final Sample.fetch_no_candidate Sample.engine_text Sample.axios_text
      Sample.numeric_positive Sample.inherited Sample.request
    = ([GenerateContent (final_text_prompt Sample.idea Sample.style);
        Predict (final_image_prompt Sample.idea)], r).
Proof.
  apply (proj1 (idea_replaces_missing_text Sample.fetch_no_candidate Sample.engine_text
                  Sample.axios_text Sample.numeric_positive Sample.inherited)
           Sample.request Sample.idea Sample.style JUndefined).
  - reflexivity.
  - discriminate.
  - discriminate.
  - eexists; split; reflexivity.
  - eexists; eexists; repeat split; vm_compute; reflexivity.
  - reflexivity.
Defined.


Lemma slug_hyphens_witness :
  last (sanitizedPrompt Sample.lower_ascii Sample.idea) <> Some HYPHEN.
Proof.
  apply (proj2 (slug_hyphens Sample.lower_ascii Sample.idea)).
  apply Nat.ltb_lt. vm_compute. reflexivity.
Defined.


Lemma data_uri_stripped_witness :
  strip_data_uri (lit "data:image/" ++ lit "jpeg" ++ lit ";base64," ++ lit "QUJD")
  = lit "QUJD".
Proof.
  apply (proj1 (data_uri_stripped (fun _ => AxiosNoResponse) 1762000000000
                  Sample.lower_ascii Sample.engine_text Sample.axios_text)).
  - discriminate.
  - vm_compute. reflexivity.
Defined.

Lemma upload_answers_witness :
  upload Sample.put_nested 1762000000000 Sample.lower_ascii Sample.engine_text
    Sample.axios_text Sample.request
  = ([PutObject (object_key (sanitizedPrompt Sample.lower_ascii Sample.idea)
                   (Number_toString 1762000000000 0))
                (Number_toString 1762000000000 0 ++ lit ".png")
                (strip_data_uri (lit "data:image/png;base64,QUJD"))],
     upload_fields (object_key (sanitizedPrompt Sample.lower_ascii Sample.idea)
                      (Number_toString 1762000000000 0))
       Sample.stored_object).
Proof.
  destruct (upload_answers Sample.put_nested 1762000000000 Sample.lower_ascii
              Sample.engine_text Sample.axios_text Sample.request Sample.idea
              (lit "data:image/png;base64,QUJD"))
    as (H2xx & _).
  - reflexivity.
  - reflexivity.
  - discriminate.
  - destruct (H2xx 201%Z (JObj [(lit "data", JObj Sample.stored_object)]))
      as (Hnested & _).
    + reflexivity.
    + lia.
    + apply (Hnested _ _ eq_refl). vm_compute. reflexivity.
Defined.

Lemma single_failure_names_option_witness :
  generate_options Sample.fetch_second_option_fails Sample.engine_text Sample.axios_text
    [2; 0; 1] Sample.request
  = Some (option_calls Sample.idea,
          json_status 500 [(lit "error", JStr (lit "Option 2 generation failed"))]).
Proof.
  apply (single_failure_names_option Sample.fetch_second_option_fails Sample.engine_text
           Sample.axios_text [2; 0; 1] Sample.request Sample.idea 1 Sample.style
           (lit "quota exceeded")).
  - exact sample_order.
  - reflexivity.
  - reflexivity.
  - reflexivity.
  - vm_compute. reflexivity.
  - intros i ci Hi Hc. destruct i as [|[|[|i]]].
    + inversion Hc; subst. eexists. vm_compute. reflexivity.
    + contradiction.
    + inversion Hc; subst. eexists. vm_compute. reflexivity.
    + discriminate Hc.
Defined.

Lemma startup_needs_both_keys_witness :
  startup Sample.env_second_names = Listening (int_num 5000).
Proof.
  pose proof (startup_needs_both_keys Sample.env_second_names)
    as (Hlisten & _ & _ & _ & _ & _ & _ & Hport & _).
  rewrite <- Hport.
  - apply Hlisten. split; right; eexists; split; try reflexivity; discriminate.
  - intros (s & Hs & Hne). inversion Hs; subst. contradiction.
Defined.

